(** * QuizGame: the server's session state machine

    A shallow embedding of the Socket.IO quiz server (the part of
    [client/src/components/Leaderboard.jsx] that starts at the comment
    "Quiz Game Server (Express + Socket.IO)") and the properties of its
    session state machine.

    The server keeps its state in module-level variables ([players],
    [currentQuestionIndex], [acceptingAnswers], [questionTimer],
    [answeredThisRound]); every socket handler and every timer callback
    runs to completion on Node's single thread.  The embedding passes that
    state explicitly, together with Node's queue of pending timeouts and
    the log of everything the server has emitted.

    - Payloads are objects, as the client sends them; a field is given by
      what the handler can tell about it (see [joinQuiz], [restartQuiz],
      [submitAnswer]).
    - Who is in the room is Socket.IO's business ([socket.join],
      [socket.leave]); an emission is logged with its audience, the one
      socket or the room.
    - Scores are integers (multiples of 10, exact as JavaScript numbers).
    - The clock is left out: a pending timeout may run at any moment, so
      the states the server can reach are among those of the model. *)

From stdpp Require Import gmap strings list sorting.
From Stdlib Require Import ZArith Lia.

Local Open Scope Z_scope.

(** ** Values *)

(** A JavaScript string is a sequence of UTF-16 code units. *)
Abbreviation jsstring := (list N).

(** Socket.IO connection ids ([socket.id]); they are the keys of [players]
    and the members of [answeredThisRound]. *)
Abbreviation SocketId := string.

(** [WhiteSpace] and [LineTerminator] code units, the ones that
    [String.prototype.trim] strips. *)
Definition isWhiteSpace (c : N) : bool :=
  let inl := fun l => existsb (N.eqb c) l in
  (inl [0x0009; 0x000A; 0x000B; 0x000C; 0x000D; 0x0020; 0x00A0; 0x1680;
        0x2028; 0x2029; 0x202F; 0x205F; 0x3000; 0xFEFF]%N
   || ((0x2000 <=? c) && (c <=? 0x200A))%N)%bool.

Fixpoint trimStart (s : jsstring) : jsstring :=
  match s with
  | c :: s' => if isWhiteSpace c then trimStart s' else s
  | [] => []
  end.

Definition trimEnd (s : jsstring) : jsstring := rev (trimStart (rev s)).

(** [s.trim()] *)
Definition trim (s : jsstring) : jsstring := trimEnd (trimStart s).

(** [s.slice(0, n)] for a non-negative [n] *)
Definition slice0 (n : nat) (s : jsstring) : jsstring := take n s.

Arguments slice0 : simpl never.
Arguments trim : simpl never.

(** ** The question catalog *)

Record Question := mkQuestion {
  qid : Z;
  text : string;
  options : list string;
  answerIndex : Z
}.

(** The sample question set of the server. *)
Definition sampleQuestions : list Question := [
  mkQuestion 1 "Which hook is used to manage state in a React function component?"
    ["useEffect"; "useState"; "useContext"; "useRef"] 1;
  mkQuestion 2 "What prop is required to render a list with stable identity and avoid re-mounts?"
    ["id"; "key"; "index"; "ref"] 1;
  mkQuestion 3 "Which hook runs after paint and is suitable for non-blocking effects?"
    ["useEffect"; "useLayoutEffect"; "useMemo"; "useCallback"] 0;
  mkQuestion 4 "What should you avoid mutating directly to maintain predictability?"
    ["Props and state"; "DOM nodes"; "Context value"; "All of the above"] 3
]%string.

Definition QUESTION_DURATION_MS : Z := 15000.

(** ** Players *)

Record Player := mkPlayer {
  nickname : jsstring;
  score : Z
}.

(** [players] is a plain object used as a map from socket id to player.
    Its own keys are kept in insertion order, which is the order
    [Object.values] and [Object.keys] go through, so it is an association
    list with one entry per key: assigning to a present key replaces the
    value where it stands, assigning to an absent one appends. *)
Abbreviation Players := (list (string * Player)).

Fixpoint getPlayer (sid : SocketId) (ps : Players) : option Player :=
  match ps with
  | [] => None
  | (k, p) :: ps' => if String.eqb k sid then Some p else getPlayer sid ps'
  end.

(** [players[sid] = p] *)
Fixpoint setPlayer (sid : SocketId) (p : Player) (ps : Players) : Players :=
  match ps with
  | [] => [(sid, p)]
  | (k, p') :: ps' =>
      if String.eqb k sid then (k, p) :: ps' else (k, p') :: setPlayer sid p ps'
  end.

(** [delete players[sid]] *)
Fixpoint deletePlayer (sid : SocketId) (ps : Players) : Players :=
  match ps with
  | [] => []
  | (k, p) :: ps' =>
      if String.eqb k sid then deletePlayer sid ps' else (k, p) :: deletePlayer sid ps'
  end.

(** [Object.values(players).forEach((p) => (p.score = 0))] *)
Definition zeroScores (ps : Players) : Players :=
  map (fun kp => (kp.1, mkPlayer (nickname kp.2) 0)) ps.

(** ** What the server sends *)

Inductive Status := Lobby | Running | Finished.

Inductive Message :=
  | ErrorMsg (msg : string)
  | QuizState (state : Status)
  | LeaderboardMsg (rows : list (jsstring * Z))
  | QuestionMsg (id : Z) (qtext : string) (opts : list string)
                (index total durationMs : Z)
  (** [answerResult] at the end of a round: [{questionId, correctIndex, summary}] *)
  | AnswerResult (questionId correctIndex : Z) (summary : string)
  (** [answerResult] to the submitter:
      [{questionId, correctIndex, youWereCorrect, saved: true}] *)
  | AnswerSaved (questionId correctIndex : Z) (youWereCorrect : bool).

Inductive Emit :=
  | ToSocket (sid : SocketId) (m : Message)   (* socket.emit(...) *)
  | ToRoom (m : Message).                     (* io.to(ROOM).emit(...) *)

(** ** Timers *)

(** The two callbacks the server hands to [setTimeout]: the arrow function
    of [sendQuestion] (the question's time is up) and [sendQuestion] itself
    (the pause after a round). *)
Inductive Callback := QuestionTimeout | AdvancePause.

#[global] Instance Callback_eq_dec : EqDecision Callback.
Proof. solve_decision. Defined.

Record Timer := mkTimer {
  handle : nat;
  callback : Callback;
  delayMs : Z
}.

(** ** The state *)

Record Server := mkServer {
  players : Players;
  currentQuestionIndex : Z;
  acceptingAnswers : bool;
  questionTimer : option nat;          (* null, or the handle setTimeout gave *)
  answeredThisRound : gset string;
  timers : list Timer;                 (* Node's pending timeouts *)
  nextTimerId : nat;                   (* the handle the next setTimeout gives *)
  outbox : list Emit                   (* everything emitted, oldest first *)
}.

Definition initial : Server :=
  mkServer [] (-1) false None ∅ [] 0 [].

Definition withPlayers (ps : Players) (s : Server) : Server :=
  mkServer ps (currentQuestionIndex s) (acceptingAnswers s) (questionTimer s)
           (answeredThisRound s) (timers s) (nextTimerId s) (outbox s).

Definition withIndex (i : Z) (s : Server) : Server :=
  mkServer (players s) i (acceptingAnswers s) (questionTimer s)
           (answeredThisRound s) (timers s) (nextTimerId s) (outbox s).

Definition withAccepting (b : bool) (s : Server) : Server :=
  mkServer (players s) (currentQuestionIndex s) b (questionTimer s)
           (answeredThisRound s) (timers s) (nextTimerId s) (outbox s).

Definition withQuestionTimer (h : option nat) (s : Server) : Server :=
  mkServer (players s) (currentQuestionIndex s) (acceptingAnswers s) h
           (answeredThisRound s) (timers s) (nextTimerId s) (outbox s).

Definition withAnswered (a : gset string) (s : Server) : Server :=
  mkServer (players s) (currentQuestionIndex s) (acceptingAnswers s) (questionTimer s)
           a (timers s) (nextTimerId s) (outbox s).

Definition emit (e : Emit) (s : Server) : Server :=
  mkServer (players s) (currentQuestionIndex s) (acceptingAnswers s) (questionTimer s)
           (answeredThisRound s) (timers s) (nextTimerId s) (outbox s ++ [e]).

(** [clearTimeout(h)]: nothing happens for [null] or for a timeout that has
    already run. *)
Definition clearTimeout (h : option nat) (s : Server) : Server :=
  match h with
  | None => s
  | Some n =>
      mkServer (players s) (currentQuestionIndex s) (acceptingAnswers s) (questionTimer s)
               (answeredThisRound s)
               (filter (fun t => handle t ≠ n) (timers s))
               (nextTimerId s) (outbox s)
  end.

(** [setTimeout(cb, ms)]: the new handle and the state with the timeout
    queued. *)
Definition setTimeout (cb : Callback) (ms : Z) (s : Server) : nat * Server :=
  (nextTimerId s,
   mkServer (players s) (currentQuestionIndex s) (acceptingAnswers s) (questionTimer s)
            (answeredThisRound s)
            (timers s ++ [mkTimer (nextTimerId s) cb ms])
            (S (nextTimerId s)) (outbox s)).

(** A handler or callback either returns or throws a [TypeError] (reading a
    property of [undefined]); the state is the one at that point. *)
Inductive Outcome :=
  | Done (s : Server)
  | Threw (s : Server).

Definition stateOf (o : Outcome) : Server :=
  match o with Done s | Threw s => s end.

(** ** The leaderboard *)

(** [rows.sort((a, b) => b.score - a.score)]: descending by score; the sort
    is stable, so rows with equal scores keep the order of [players]. *)
Fixpoint insertRow (r : jsstring * Z) (rows : list (jsstring * Z)) : list (jsstring * Z) :=
  match rows with
  | [] => [r]
  | r' :: rows' => if r.2 <? r'.2 then r' :: insertRow r rows' else r :: rows
  end.

Definition leaderboardOf (ps : Players) : list (jsstring * Z) :=
  foldr insertRow [] (map (fun kp => (nickname kp.2, score kp.2)) ps).

Definition broadcastLeaderboard (s : Server) : Server :=
  emit (ToRoom (LeaderboardMsg (leaderboardOf (players s)))) s.

(** [Object.keys(players).length] *)
Definition activePlayerCount (s : Server) : nat := length (players s).

(** [answeredThisRound = new Set()] *)
Definition resetRoundTracking (s : Server) : Server := withAnswered ∅ s.

(** [resetGame({ resetScores })] *)
Definition resetGame (resetScores : bool) (s : Server) : Server :=
  let s := if resetScores then withPlayers (zeroScores (players s)) s else s in
  let s := withIndex (-1) s in
  let s := withAccepting false s in
  let s := clearTimeout (questionTimer s) s in
  let s := withQuestionTimer None s in
  resetRoundTracking s.

(** ** The handlers, over a catalog *)

Section Quiz.

Variable questions : list Question.

(** [questions[i]]: [undefined] outside the array. *)
Definition questionAt (i : Z) : option Question :=
  if i <? 0 then None else questions !! Z.to_nat i.

Definition inBounds (i : Z) : bool :=
  (0 <=? i) && (i <? Z.of_nat (length questions)).

(** The state a joiner is told:
    [currentQuestionIndex >= 0 && currentQuestionIndex < questions.length
     ? 'running' : 'lobby']. *)
Definition statusForJoiner (s : Server) : Status :=
  if inBounds (currentQuestionIndex s) then Running else Lobby.

(** [endQuestionAndMaybeNext(summary)]; [q.id] throws when there is no
    question at the current index. *)
Definition endQuestionAndMaybeNext (summary : string) (s : Server) : Outcome :=
  match questionAt (currentQuestionIndex s) with
  | None => Threw s
  | Some q =>
      let s := emit (ToRoom (AnswerResult (qid q) (answerIndex q) summary)) s in
      let s := broadcastLeaderboard s in
      Done (setTimeout AdvancePause 1500 s).2
  end.

(** [sendQuestion()]; the destructuring of [questions[currentQuestionIndex]]
    throws when the index is negative. *)
Definition sendQuestion (s : Server) : Outcome :=
  let s := withIndex (currentQuestionIndex s + 1) s in
  let s := resetRoundTracking s in
  if Z.of_nat (length questions) <=? currentQuestionIndex s then
    let s := emit (ToRoom (QuizState Finished)) s in
    let s := broadcastLeaderboard s in
    Done (withAccepting false s)
  else
    match questionAt (currentQuestionIndex s) with
    | None => Threw s
    | Some q =>
        let s := withAccepting true s in
        let s := emit (ToRoom (QuestionMsg (qid q) (text q) (options q)
                                 (currentQuestionIndex s)
                                 (Z.of_nat (length questions))
                                 QUESTION_DURATION_MS)) s in
        let s := clearTimeout (questionTimer s) s in
        let '(h, s) := setTimeout QuestionTimeout QUESTION_DURATION_MS s in
        Done (withQuestionTimer (Some h) s)
    end.

(** The callback armed by [sendQuestion]. *)
Definition questionTimeout (s : Server) : Outcome :=
  let s := withAccepting false s in
  endQuestionAndMaybeNext "Time up!" s.

(** [socket.on('joinQuiz', ({ nickname }) => ...)].  [nick] is [Some s] when
    the payload's [nickname] is the string [s] and [None] when it is
    anything else, which is all that
    [!nickname || typeof nickname !== 'string'] tells apart. *)
Definition joinQuiz (sid : SocketId) (nick : option jsstring) (s : Server) : Outcome :=
  match nick with
  | Some (c :: n) =>
      let s := withPlayers
                 (setPlayer sid (mkPlayer (slice0 20 (trim (c :: n))) 0) (players s)) s in
      let s := emit (ToSocket sid (QuizState (statusForJoiner s))) s in
      Done (broadcastLeaderboard s)
  | _ => Done (emit (ToSocket sid (ErrorMsg "Nickname is required")) s)
  end.

(** [socket.on('startQuiz', ...)] *)
Definition startQuiz (s : Server) : Outcome :=
  if negb (currentQuestionIndex s =? -1) then Done s
  else sendQuestion (emit (ToRoom (QuizState Running)) s).

(** [socket.on('restartQuiz', ({ resetScores = true } = {}) => ...)];
    [None] is a payload without [resetScores], [Some b] one whose
    [resetScores] is truthy ([true]) or falsy. *)
Definition restartQuiz (resetScores : option bool) (s : Server) : Outcome :=
  let s := resetGame (default true resetScores) s in
  sendQuestion (emit (ToRoom (QuizState Running)) s).

(** [socket.on('submitAnswer', ({ questionId, answerIndex }) => ...)].
    [questionId] is [Some n] when the payload's [questionId] is the number
    [n] (nothing else is [===] to a question's id); [ans] is
    [Number(answerIndex)], [None] when that is not an integer. *)
Definition submitAnswer (sid : SocketId) (questionId ans : option Z) (s : Server) : Outcome :=
  if negb (acceptingAnswers s) then Done s else
  match questionAt (currentQuestionIndex s) with
  | None => Done s
  | Some q =>
      if negb (bool_decide (questionId = Some (qid q))) then Done s else
      if bool_decide (sid ∈ answeredThisRound s) then Done s else
      let s := withAnswered ({[sid]} ∪ answeredThisRound s) s in
      match getPlayer sid (players s) with
      | None => Done s
      | Some player =>
          let correct := bool_decide (ans = Some (answerIndex q)) in
          let s := if correct
                   then withPlayers
                          (setPlayer sid (mkPlayer (nickname player) (score player + 10))
                                     (players s)) s
                   else s in
          let s := emit (ToSocket sid (AnswerSaved (qid q) (answerIndex q) correct)) s in
          let s := broadcastLeaderboard s in
          let total := activePlayerCount s in
          if ((0 <? total)%nat && (total <=? size (answeredThisRound s))%nat)%bool then
            let s := withAccepting false s in
            let s := clearTimeout (questionTimer s) s in
            endQuestionAndMaybeNext "All players answered" s
          else Done s
      end
  end.

(** [socket.on('nextQuestion', ...)] *)
Definition nextQuestion (s : Server) : Outcome :=
  if currentQuestionIndex s =? -1 then Done s else
  let s := withAccepting false s in
  let s := clearTimeout (questionTimer s) s in
  endQuestionAndMaybeNext "Advanced by host" s.

(** [socket.on('getLeaderboard', ...)] *)
Definition getLeaderboard (s : Server) : Outcome := Done (broadcastLeaderboard s).

(** [socket.on('leaveQuiz', ...)] *)
Definition leaveQuiz (sid : SocketId) (s : Server) : Outcome :=
  let s := withPlayers (deletePlayer sid (players s)) s in
  Done (broadcastLeaderboard s).

(** [socket.on('disconnect', ...)] *)
Definition disconnect (sid : SocketId) (s : Server) : Outcome :=
  let s := withPlayers (deletePlayer sid (players s)) s in
  let total := activePlayerCount s in
  if (acceptingAnswers s && (total <=? size (answeredThisRound s))%nat)%bool then
    let s := withAccepting false s in
    let s := clearTimeout (questionTimer s) s in
    endQuestionAndMaybeNext "All remaining players answered" s
  else Done (broadcastLeaderboard s).

(** ** The event loop *)

Inductive Event :=
  | JoinQuiz (sid : SocketId) (nick : option jsstring)
  | StartQuiz (sid : SocketId)
  | RestartQuiz (sid : SocketId) (resetScores : option bool)
  | SubmitAnswer (sid : SocketId) (questionId ans : option Z)
  | NextQuestion (sid : SocketId)
  | GetLeaderboard (sid : SocketId)
  | LeaveQuiz (sid : SocketId)
  | Disconnect (sid : SocketId)
  | TimerFires (h : nat).

Definition findTimer (h : nat) (s : Server) : option Timer :=
  head (filter (fun t => handle t = h) (timers s)).

(** A pending timeout runs: it leaves the queue and its callback is called.
    A handle that is not pending does nothing. *)
Definition fire (h : nat) (s : Server) : Outcome :=
  match findTimer h s with
  | None => Done s
  | Some t =>
      let s := clearTimeout (Some h) s in
      match callback t with
      | QuestionTimeout => questionTimeout s
      | AdvancePause => sendQuestion s
      end
  end.

Definition step (e : Event) (s : Server) : Outcome :=
  match e with
  | JoinQuiz sid nick => joinQuiz sid nick s
  | StartQuiz _ => startQuiz s
  | RestartQuiz _ rs => restartQuiz rs s
  | SubmitAnswer sid q a => submitAnswer sid q a s
  | NextQuestion _ => nextQuestion s
  | GetLeaderboard _ => getLeaderboard s
  | LeaveQuiz sid => leaveQuiz sid s
  | Disconnect sid => disconnect sid s
  | TimerFires h => fire h s
  end.

(** Events handled one after the other; a throw ends the run (nothing in
    the server catches it). *)
Fixpoint run (es : list Event) (s : Server) : Outcome :=
  match es with
  | [] => Done s
  | e :: es' =>
      match step e s with
      | Done s' => run es' s'
      | Threw s' => Threw s'
      end
  end.

(** The states the server can be in: the initial one and those a handler or
    a timer callback returns in. *)
Inductive reachable : Server -> Prop :=
  | reachable_initial : reachable initial
  | reachable_step e s s' : reachable s -> step e s = Done s' -> reachable s'.

End Quiz.

(** ** What the clients see *)

(** The server keeps no status variable: the session's status is the last
    [quizState] it sent to the room, and [lobby] (what the client starts
    with) before the first one. *)
Definition roomStatus (s : Server) : Status :=
  fold_left (fun st e => match e with ToRoom (QuizState x) => x | _ => st end)
            (outbox s) Lobby.

(** What was emitted between two states. *)
Definition emittedSince (s s' : Server) : list Emit :=
  drop (length (outbox s)) (outbox s').

(** The end of a round as the room sees it: an [answerResult] carrying the
    given summary. *)
Definition isRoundEnd (summary : string) (e : Emit) : bool :=
  match e with
  | ToRoom (AnswerResult _ _ sm) => String.eqb sm summary
  | _ => false
  end.

Definition isAnyRoundEnd (e : Emit) : bool :=
  match e with
  | ToRoom (AnswerResult _ _ _) => true
  | _ => false
  end.

(** A handler's outcome ends the round with the given summary. *)
Definition endsRoundWith (summary : string) (s : Server) (o : Outcome) : bool :=
  existsb (isRoundEnd summary) (emittedSince s (stateOf o)).

Definition isQuestionServed (e : Emit) : bool :=
  match e with
  | ToRoom (QuestionMsg _ _ _ _ _ _) => true
  | _ => false
  end.

(** The handles of the pending timeouts. *)
Definition pendingHandles (s : Server) : list nat := handle <$> timers s.

(** No question timeout that was pending in [s] is pending in [s']. *)
Definition cancelsQuestionTimeout (s s' : Server) : Prop :=
  forall t, t ∈ timers s -> callback t = QuestionTimeout ->
            handle t ∉ pendingHandles s'.

(** Every timeout pending in [s'] either was pending in [s] under another
    handle than the one [questionTimer] held, or was armed since. *)
Definition clearedAndArmed (s s' : Server) : Prop :=
  forall t, t ∈ timers s' ->
    (t ∈ timers s /\ questionTimer s <> Some (handle t)) \/
    (nextTimerId s <= handle t)%nat.

(** [submitAnswer] after an accepted answer of a registered player is
    recorded, scored, acknowledged and the leaderboard sent, just before the
    test that everybody has answered. *)
Definition answerRecorded (sid : SocketId) (q : Question) (ans : option Z)
    (player : Player) (s : Server) : Server :=
  let s := withAnswered ({[sid]} ∪ answeredThisRound s) s in
  let correct := bool_decide (ans = Some (answerIndex q)) in
  let s := if correct
           then withPlayers
                  (setPlayer sid (mkPlayer (nickname player) (score player + 10))
                             (players s)) s
           else s in
  let s := emit (ToSocket sid (AnswerSaved (qid q) (answerIndex q) correct)) s in
  broadcastLeaderboard s.

(** A round that stops: no more answers, the question timeout cancelled. *)
Definition roundStopped (s : Server) : Server :=
  clearTimeout (questionTimer s) (withAccepting false s).

Definition isRestart (e : Event) : bool :=
  match e with RestartQuiz _ _ => true | _ => false end.

(** A step that supersedes the round it was taken in: a restart, a step
    that serves a question, or a step that ends a round. *)
Definition supersedesRound (e : Event) (s s' : Server) : Prop :=
  isRestart e = true \/
  existsb isQuestionServed (emittedSince s s') = true \/
  existsb isAnyRoundEnd (emittedSince s s') = true.

(** ** Invariants *)

(** Handles are fresh, and the only question timeout that can be pending is
    the one [questionTimer] holds. *)
Record TimersOk (s : Server) : Prop := {
  handles_below : Forall (fun t => (handle t < nextTimerId s)%nat) (timers s);
  held_below : forall h, questionTimer s = Some h -> (h < nextTimerId s)%nat;
  question_timeout_held :
    Forall (fun t => callback t = QuestionTimeout -> questionTimer s = Some (handle t))
           (timers s)
}.

Section Session.

Variable questions : list Question.

(** The index never goes below -1; before the first start nothing is
    pending; answers are accepted only for a question of the catalog, and
    the room has been told [running] whenever the index is on one. *)
Record SessionInv (s : Server) : Prop := {
  index_lower : -1 <= currentQuestionIndex s;
  idle_before_start :
    currentQuestionIndex s = -1 -> timers s = [] /\ acceptingAnswers s = false;
  accepting_in_catalog :
    acceptingAnswers s = true ->
    currentQuestionIndex s < Z.of_nat (length questions);
  running_told :
    inBounds questions (currentQuestionIndex s) = true -> roomStatus s = Running
}.

(** Answers are accepted only while the session is running, for the room
    and for a joiner alike, and the current index is on a question. *)
Definition AcceptingOnlyRunning (s : Server) : Prop :=
  acceptingAnswers s = true ->
  roomStatus s = Running /\
  statusForJoiner questions s = Running /\
  0 <= currentQuestionIndex s < Z.of_nat (length questions).


End Session.

(** ** Sample sessions *)

(** Sessions over the server's own catalog, named by the events handled
    since the server started.  The nicknames are "Ada" and "Bob". *)
Definition ada : jsstring := [65; 100; 97]%N.
Definition bob : jsstring := [66; 111; 98]%N.

Definition sessionAfter (es : list Event) : Server :=
  stateOf (run sampleQuestions es initial).

Definition twoInLobby : list Event :=
  [JoinQuiz "s1" (Some ada); JoinQuiz "s2" (Some bob)].

(** Two players, the first question open, nobody has answered. *)
Definition firstQuestionOpen : list Event :=
  twoInLobby ++ [StartQuiz "s1"].

(** The host has skipped the first question; the pause before the second
    is running. *)
Definition firstQuestionSkipped : list Event :=
  firstQuestionOpen ++ [NextQuestion "s1"].

(** ... and the quiz is restarted before the pause is over. *)
Definition restartedInPause : list Event :=
  firstQuestionSkipped ++ [RestartQuiz "s1" None].

(** The first player has answered and left; the second has not answered. *)
Definition answeredAndLeft : list Event :=
  firstQuestionOpen ++ [SubmitAnswer "s1" (Some 1) (Some 1); LeaveQuiz "s1"].

(** One player, the first question open, no answer yet. *)
Definition soloQuestionOpen : list Event :=
  [JoinQuiz "s1" (Some ada); StartQuiz "s1"].

(** Ada has answered the first question correctly; Bob has not answered. *)
Definition adaScored : list Event :=
  firstQuestionOpen ++ [SubmitAnswer "s1" (Some 1) (Some 1)].

(** A connection that never joined has answered the first question. *)
Definition strangerAnswered : list Event :=
  firstQuestionOpen ++ [SubmitAnswer "s9" (Some 1) (Some 2)].

(** The first question of the catalog. *)
Definition firstSample : Question :=
  mkQuestion 1 "Which hook is used to manage state in a React function component?"
    ["useEffect"; "useState"; "useContext"; "useRef"] 1.

(** Three spaces. *)
Definition blank : jsstring := [32; 32; 32]%N.

(** The quiz is started with nobody in the registry. *)
Definition nobodyJoined : list Event := [StartQuiz "s1"].

(** The host skips the third question twice: the first advance serves the
    fourth question, the second finishes the quiz while that question's
    timeout is pending. *)
Definition finishedOverOpenQuestion : list Event :=
  [JoinQuiz "s1" (Some ada); StartQuiz "s1";
   NextQuestion "s1"; TimerFires 1; NextQuestion "s1"; TimerFires 3;
   NextQuestion "s1"; NextQuestion "s1"; TimerFires 5; TimerFires 6].

(** Every timeout that was pending in [s], whatever its callback, is gone
    in [s']. *)
Definition cancelsEveryTimeout (s s' : Server) : Prop :=
  forall t, t ∈ timers s -> handle t ∉ pendingHandles s'.

(** ** The lobby *)

(** The client's lobby keeps the name as typed; its Join button is disabled
    on [!name.trim()], and a click sends [joinQuiz] with [{ nickname: name }]
    (the host heuristic that follows only touches the client's state). *)
Definition joinDisabled (name : jsstring) : bool :=
  match trim name with [] => true | _ => false end.

Definition lobbyJoin (questions : list Question) (sid : SocketId) (name : jsstring)
    (s : Server) : Outcome :=
  if joinDisabled name then Done s else joinQuiz questions sid (Some name) s.

(** ** Allowed origins *)

Definition DEV_ORIGINS : list string :=
  ["http://localhost:5173"; "http://127.0.0.1:5173"]%string.

(** JavaScript's [Boolean] on a string or [undefined]. *)
Definition truthy (v : option string) : bool :=
  match v with
  | Some (String _ _) => true
  | _ => false
  end.

(** [allowedOrigins]: [production] is [process.env.NODE_ENV === 'production']
    and [clientOrigin] is [process.env.CLIENT_ORIGIN], [None] when unset;
    [[clientOrigin].filter(Boolean)] keeps it when it is a non-empty
    string. *)
Definition allowedOrigins (production : bool) (clientOrigin : option string)
    : list string :=
  if production
  then match clientOrigin with
       | Some o => if truthy clientOrigin then [o] else []
       | None => []
       end
  else DEV_ORIGINS.

(** The [origin] callback of the Socket.IO server: [true] for
    [cb(null, true)], [false] for the error.  [origin] is [None] for a
    request without an Origin header. *)
Definition corsAllows (production : bool) (clientOrigin origin : option string)
    : bool :=
  negb (truthy origin)
  || match origin with
     | Some o => bool_decide (o ∈ allowedOrigins production clientOrigin)
     | None => false
     end.

(** ** What a registry and a leaderboard should look like *)

(** The rows of [players], in the order of [Object.values]. *)
Definition rowsOf (ps : Players) : list (jsstring * Z) :=
  map (fun kp => (nickname kp.2, score kp.2)) ps.

(** Scores do not go up along the list. *)
Definition descending (rows : list (jsstring * Z)) : Prop :=
  StronglySorted (fun a b => b.2 <= a.2) rows.

(** One entry per connection. *)
Definition RegistryOk (s : Server) : Prop := NoDup (players s).*1.

(** The ways the handlers change [players]: not at all, by an accepted
    join, by a removal, by zeroing the scores, by rewarding an answer. *)
Inductive RegistryChange (ps : Players) : Players -> Prop :=
  | registry_same : RegistryChange ps ps
  | registry_joined sid c n :
      RegistryChange ps (setPlayer sid (mkPlayer (slice0 20 (trim (c :: n))) 0) ps)
  | registry_removed sid : RegistryChange ps (deletePlayer sid ps)
  | registry_zeroed : RegistryChange ps (zeroScores ps)
  | registry_rewarded sid pl :
      getPlayer sid ps = Some pl ->
      RegistryChange ps (setPlayer sid (mkPlayer (nickname pl) (score pl + 10)) ps).

Definition scoreOk (p : Player) : Prop := 0 <= score p /\ (10 | score p).

Definition nicknameOk (p : Player) : Prop :=
  (length (nickname p) <= 20)%nat /\
  forall c n, nickname p = c :: n -> isWhiteSpace c = false.

Definition throws (o : Outcome) : bool :=
  match o with Threw _ => true | Done _ => false end.

(** The ways the handlers change Node's queue of timeouts, given with the
    next handle: not at all, by clearing a handle, by arming a timeout under
    the next handle, or by several of these in a row. *)
Inductive TimersChange : list Timer * nat -> list Timer * nat -> Prop :=
  | timers_same x : TimersChange x x
  | timers_cleared ts n h :
      TimersChange (ts, n) (filter (fun t => handle t <> h) ts, n)
  | timers_armed ts n cb ms :
      TimersChange (ts, n) (ts ++ [mkTimer n cb ms], S n)
  | timers_then x y z : TimersChange x y -> TimersChange y z -> TimersChange x z.

(** Handles are below the next one and no two pending timeouts share one. *)
Definition TimersDistinct (x : list Timer * nat) : Prop :=
  Forall (fun t => (handle t < x.2)%nat) x.1 /\ NoDup (handle <$> x.1).

(** While answers are accepted, the timeout of the question is pending
    under the handle [questionTimer] holds. *)
Definition OpenRound (s : Server) : Prop :=
  acceptingAnswers s = true ->
  exists h, questionTimer s = Some h /\
            mkTimer h QuestionTimeout QUESTION_DURATION_MS ∈ timers s.

(** The one situation in which the server throws: the host's skip, or the
    end of a question's time, met with the index past the catalog, where
    [endQuestionAndMaybeNext] reads [q.id] of no question. *)
Definition pastCatalogEnd (questions : list Question) (e : Event) (s : Server) : Prop :=
  match e with
  | NextQuestion _ => Z.of_nat (length questions) <= currentQuestionIndex s
  | TimerFires h =>
      Z.of_nat (length questions) <= currentQuestionIndex s /\
      exists t, findTimer h s = Some t /\ callback t = QuestionTimeout
  | _ => False
  end.

(** The status that goes with an index: [lobby] before the start, [running]
    on a question, [finished] past the last one. *)
Definition statusOfIndex (questions : list Question) (i : Z) : Status :=
  if i =? -1 then Lobby
  else if inBounds questions i then Running
  else Finished.

(** The whole catalog skipped by the host: four questions started and
    skipped, each pause run to its end. *)
Definition quizFinished : list Event :=
  [JoinQuiz "s1" (Some ada); StartQuiz "s1";
   NextQuestion "s1"; TimerFires 1; NextQuestion "s1"; TimerFires 3;
   NextQuestion "s1"; TimerFires 5; NextQuestion "s1"; TimerFires 7].

(** * Properties *)

(** ** Strings and the registry *)

Lemma trimStart_no_leading_space s c s' :
  trimStart s = c :: s' -> isWhiteSpace c = false.
Proof.
  induction s as [|a s IH]; simpl; [discriminate|].
  destruct (isWhiteSpace a) eqn:Ha; [exact IH|].
  intros [= -> _]. exact Ha.
Qed.

Lemma trimStart_all_space s :
  forallb isWhiteSpace s = true -> trimStart s = [].
Proof.
  induction s as [|a s IH]; simpl; [done|].
  intros [Ha Hs]%andb_prop. rewrite Ha. auto.
Qed.

Lemma slice0_length n s : (length (slice0 n s) <= n)%nat.
Proof. unfold slice0. rewrite length_take. lia. Qed.

Lemma getPlayer_setPlayer_eq sid p ps :
  getPlayer sid (setPlayer sid p ps) = Some p.
Proof.
  induction ps as [|[k p'] ps IH]; simpl.
  - by rewrite String.eqb_refl.
  - destruct (String.eqb k sid) eqn:E; simpl; rewrite E; auto.
Qed.

Lemma getPlayer_setPlayer_ne sid sid' p ps :
  sid <> sid' -> getPlayer sid' (setPlayer sid p ps) = getPlayer sid' ps.
Proof.
  intros Hne. induction ps as [|[k p'] ps IH]; simpl.
  - destruct (String.eqb sid sid') eqn:E; [|done].
    apply String.eqb_eq in E. contradiction.
  - destruct (String.eqb k sid) eqn:E; simpl.
    + apply String.eqb_eq in E. subst k.
      destruct (String.eqb sid sid') eqn:E'; [|done].
      apply String.eqb_eq in E'. contradiction.
    + by rewrite IH.
Qed.

Lemma setPlayer_length_present sid p p' ps :
  getPlayer sid ps = Some p' -> length (setPlayer sid p ps) = length ps.
Proof.
  induction ps as [|[k q] ps IH]; simpl; [discriminate|].
  destruct (String.eqb k sid); simpl; auto.
Qed.

Lemma getPlayer_deletePlayer_eq sid ps : getPlayer sid (deletePlayer sid ps) = None.
Proof.
  induction ps as [|[k p] ps IH]; simpl; [done|].
  destruct (String.eqb k sid) eqn:E; simpl; [done|]. by rewrite E.
Qed.

Lemma getPlayer_zeroScores sid ps :
  getPlayer sid (zeroScores ps) =
  (fun p => mkPlayer (nickname p) 0) <$> getPlayer sid ps.
Proof.
  induction ps as [|[k p] ps IH]; simpl; [done|].
  destruct (String.eqb k sid); simpl; auto.
Qed.

Lemma getPlayer_Some_length sid p ps :
  getPlayer sid ps = Some p -> (0 < length ps)%nat.
Proof. destruct ps; simpl; [discriminate | lia]. Qed.

(** ** The log of emitted events *)

Lemma roomStatus_emit e s :
  roomStatus (emit e s) =
  match e with ToRoom (QuizState x) => x | _ => roomStatus s end.
Proof.
  unfold roomStatus, emit; simpl. rewrite fold_left_app. simpl.
  destruct e as [?|[]]; done.
Qed.

Lemma emittedSince_refl s : emittedSince s s = [].
Proof. unfold emittedSince. by rewrite drop_all. Qed.

Lemma emittedSince_outbox s s' es :
  outbox s' = outbox s ++ es -> emittedSince s s' = es.
Proof. unfold emittedSince. intros ->. by rewrite drop_app_length. Qed.

Section Properties.

Variable questions : list Question.

Lemma questionAt_Some_inBounds i q : questionAt questions i = Some q -> inBounds questions i = true.
Proof.
  unfold questionAt, inBounds.
  destruct (Z.ltb_spec i 0); [discriminate|].
  intros Hq%lookup_lt_Some.
  apply andb_true_intro; split; [apply Z.leb_le | apply Z.ltb_lt]; lia.
Qed.

Lemma inBounds_questionAt i : inBounds questions i = true -> is_Some (questionAt questions i).
Proof.
  unfold questionAt, inBounds.
  intros [H0%Z.leb_le Hl%Z.ltb_lt]%andb_prop.
  destruct (Z.ltb_spec i 0); [lia|].
  apply lookup_lt_is_Some. lia.
Qed.

Lemma inBounds_spec i :
  inBounds questions i = true <-> 0 <= i < Z.of_nat (length questions).
Proof.
  unfold inBounds. rewrite andb_true_iff, Z.leb_le, Z.ltb_lt. done.
Qed.

(** ** The session invariant *)

Lemma SessionInv_initial : SessionInv questions initial.
Proof.
  split; simpl; done.
Qed.

Lemma SessionInv_frame s s' :
  SessionInv questions s ->
  currentQuestionIndex s' = currentQuestionIndex s ->
  (acceptingAnswers s' = true -> acceptingAnswers s = true) ->
  (timers s = [] -> currentQuestionIndex s = -1 -> timers s' = []) ->
  roomStatus s' = roomStatus s ->
  SessionInv questions s'.
Proof.
  intros [Hl Hi Ha Hr] Hidx Hacc Htm Hst.
  split; rewrite ?Hidx, ?Hst; auto.
  - intros E. destruct (Hi E) as [Ht Hf]. split; [auto|].
    destruct (acceptingAnswers s') eqn:E'; [|done].
    rewrite Hacc in Hf; done.
Qed.

Lemma SessionInv_endQuestionAndMaybeNext sm s :
  SessionInv questions s -> SessionInv questions (stateOf (endQuestionAndMaybeNext questions sm s)).
Proof.
  intros HI. unfold endQuestionAndMaybeNext.
  destruct (questionAt questions (currentQuestionIndex s)) as [q|] eqn:Hq; simpl; [|done].
  apply questionAt_Some_inBounds, inBounds_spec in Hq.
  destruct HI as [Hl Hi Ha Hr].
  split; simpl; auto.
  - intros E. lia.
  - intros Hb. unfold broadcastLeaderboard.
    specialize (Hr Hb). revert Hr. unfold roomStatus; simpl.
    rewrite !fold_left_app. simpl. done.
Qed.

Lemma SessionInv_sendQuestion s :
  -1 <= currentQuestionIndex s ->
  (inBounds questions (currentQuestionIndex s + 1) = true -> roomStatus s = Running) ->
  SessionInv questions (stateOf (sendQuestion questions s)).
Proof.
  intros Hl Hr. unfold sendQuestion. simpl.
  destruct (Z.leb_spec (Z.of_nat (length questions)) (currentQuestionIndex s + 1)) as [Hfin|Hin].
  - split; simpl; try done; try lia.
    intros Hb%inBounds_spec. lia.
  - assert (Hb : inBounds questions (currentQuestionIndex s + 1) = true)
      by (apply inBounds_spec; lia).
    destruct (inBounds_questionAt _ Hb) as [q Hq]. rewrite Hq.
    destruct (questionTimer s) as [h|]; simpl.
    all: split; simpl; try done; try lia.
    all: intros _; specialize (Hr Hb); revert Hr; unfold roomStatus; simpl.
    all: rewrite !fold_left_app; simpl; done.
Qed.

Lemma SessionInv_roundStopped s :
  SessionInv questions s -> SessionInv questions (roundStopped s).
Proof.
  intros HI. unfold roundStopped. apply (SessionInv_frame s _ HI).
  - by destruct (questionTimer s).
  - by destruct (questionTimer s).
  - intros Ht _. destruct (questionTimer s); simpl; by rewrite ?Ht.
  - by destruct (questionTimer s).
Qed.

Lemma SessionInv_joinQuiz sid nick s :
  SessionInv questions s -> SessionInv questions (stateOf (joinQuiz questions sid nick s)).
Proof.
  intros HI. unfold joinQuiz.
  destruct nick as [[|c n]|]; simpl.
  all: apply (SessionInv_frame s _ HI); [done..|].
  all: unfold broadcastLeaderboard; by rewrite !roomStatus_emit.
Qed.

Lemma SessionInv_startQuiz s :
  SessionInv questions s -> SessionInv questions (stateOf (startQuiz questions s)).
Proof.
  intros HI. unfold startQuiz.
  destruct (Z.eqb_spec (currentQuestionIndex s) (-1)) as [E|E]; simpl; [|done].
  apply SessionInv_sendQuestion; simpl; [lia|].
  intros _. by rewrite roomStatus_emit.
Qed.

Lemma SessionInv_restartQuiz rs s :
  SessionInv questions (stateOf (restartQuiz questions rs s)).
Proof.
  unfold restartQuiz. apply SessionInv_sendQuestion.
  - unfold resetGame. destruct (default true rs); simpl;
      destruct (questionTimer s); simpl; lia.
  - intros _. by rewrite roomStatus_emit.
Qed.

(** The handler of [submitAnswer], case by case. *)
Lemma submitAnswer_closed sid qi a s :
  acceptingAnswers s = false -> submitAnswer questions sid qi a s = Done s.
Proof. unfold submitAnswer. by intros ->. Qed.

Lemma submitAnswer_already sid qi a s :
  sid ∈ answeredThisRound s -> submitAnswer questions sid qi a s = Done s.
Proof.
  intros Hin. unfold submitAnswer.
  destruct (acceptingAnswers s); simpl; [|done].
  destruct (questionAt questions (currentQuestionIndex s)); [|done].
  case_bool_decide; simpl; [|done]. by rewrite bool_decide_eq_true_2.
Qed.

Lemma submitAnswer_unregistered sid q a s :
  acceptingAnswers s = true ->
  questionAt questions (currentQuestionIndex s) = Some q ->
  sid ∉ answeredThisRound s ->
  getPlayer sid (players s) = None ->
  submitAnswer questions sid (Some (qid q)) a s =
  Done (withAnswered ({[sid]} ∪ answeredThisRound s) s).
Proof.
  intros Hacc Hq Hnew Hp. unfold submitAnswer. rewrite Hacc, Hq. simpl.
  rewrite bool_decide_eq_true_2 by done. simpl.
  rewrite bool_decide_eq_false_2 by done. by rewrite Hp.
Qed.

Lemma submitAnswer_accepted sid q a pl s :
  acceptingAnswers s = true ->
  questionAt questions (currentQuestionIndex s) = Some q ->
  sid ∉ answeredThisRound s ->
  getPlayer sid (players s) = Some pl ->
  submitAnswer questions sid (Some (qid q)) a s =
  let s1 := answerRecorded sid q a pl s in
  if ((0 <? activePlayerCount s1)%nat
      && (activePlayerCount s1 <=? size (answeredThisRound s1))%nat)%bool
  then endQuestionAndMaybeNext questions "All players answered" (roundStopped s1)
  else Done s1.
Proof.
  intros Hacc Hq Hnew Hp. unfold submitAnswer. rewrite Hacc, Hq. simpl.
  rewrite bool_decide_eq_true_2 by done. simpl.
  rewrite bool_decide_eq_false_2 by done. rewrite Hp.
  unfold answerRecorded, roundStopped. by case_bool_decide.
Qed.

Lemma submitAnswer_inv sid qi a s :
  (submitAnswer questions sid qi a s = Done s) \/
  (exists q, acceptingAnswers s = true /\
             questionAt questions (currentQuestionIndex s) = Some q /\
             qi = Some (qid q) /\ sid ∉ answeredThisRound s).
Proof.
  unfold submitAnswer.
  destruct (acceptingAnswers s); simpl; [|by left].
  destruct (questionAt questions (currentQuestionIndex s)) as [q|]; [|by left].
  case_bool_decide; simpl; [|by left].
  case_bool_decide; simpl; [by left|].
  right. by exists q.
Qed.

Lemma SessionInv_answerRecorded sid q a pl s :
  SessionInv questions s -> SessionInv questions (answerRecorded sid q a pl s).
Proof.
  intros HI. unfold answerRecorded. apply (SessionInv_frame s _ HI).
  - by case_bool_decide.
  - by case_bool_decide.
  - by case_bool_decide.
  - unfold broadcastLeaderboard. rewrite !roomStatus_emit. by case_bool_decide.
Qed.

Lemma SessionInv_submitAnswer sid qi a s :
  SessionInv questions s ->
  SessionInv questions (stateOf (submitAnswer questions sid qi a s)).
Proof.
  intros HI.
  destruct (submitAnswer_inv sid qi a s) as [->|(q & Hacc & Hq & -> & Hnew)]; [done|].
  destruct (getPlayer sid (players s)) as [pl|] eqn:Hp.
  - rewrite (submitAnswer_accepted _ _ _ pl) by done. simpl.
    destruct (_ && _)%bool.
    + by apply SessionInv_endQuestionAndMaybeNext, SessionInv_roundStopped,
        SessionInv_answerRecorded.
    + by apply SessionInv_answerRecorded.
  - rewrite submitAnswer_unregistered by done. simpl.
    by apply (SessionInv_frame s _ HI).
Qed.

Lemma SessionInv_nextQuestion s :
  SessionInv questions s -> SessionInv questions (stateOf (nextQuestion questions s)).
Proof.
  intros HI. unfold nextQuestion.
  destruct (currentQuestionIndex s =? -1); [done|].
  by apply SessionInv_endQuestionAndMaybeNext, (SessionInv_roundStopped s).
Qed.

Lemma SessionInv_leaveQuiz sid s :
  SessionInv questions s -> SessionInv questions (stateOf (leaveQuiz sid s)).
Proof.
  intros HI. unfold leaveQuiz; simpl.
  apply (SessionInv_frame s _ HI); [done..|].
  unfold broadcastLeaderboard. by rewrite roomStatus_emit.
Qed.

Lemma SessionInv_disconnect sid s :
  SessionInv questions s -> SessionInv questions (stateOf (disconnect questions sid s)).
Proof.
  intros HI. unfold disconnect.
  set (s1 := withPlayers _ s).
  assert (H1 : SessionInv questions s1) by (by apply (SessionInv_frame s _ HI)).
  destruct (_ && _)%bool.
  - by apply SessionInv_endQuestionAndMaybeNext, (SessionInv_roundStopped s1).
  - simpl. apply (SessionInv_frame s1 _ H1); [done..|].
    unfold broadcastLeaderboard. by rewrite roomStatus_emit.
Qed.

Lemma findTimer_Some_pending h t s : findTimer h s = Some t -> timers s <> [].
Proof. unfold findTimer. by destruct (timers s). Qed.

Lemma SessionInv_fire h s :
  SessionInv questions s -> SessionInv questions (stateOf (fire questions h s)).
Proof.
  intros HI. unfold fire.
  destruct (findTimer h s) as [t|] eqn:Ht; [|done].
  apply findTimer_Some_pending in Ht.
  assert (Hidx : 0 <= currentQuestionIndex s).
  { destruct HI as [Hl Hi _ _].
    destruct (Z.eq_dec (currentQuestionIndex s) (-1)) as [E|E]; [|lia].
    destruct (Hi E); contradiction. }
  assert (H1 : SessionInv questions (clearTimeout (Some h) s)).
  { apply (SessionInv_frame s _ HI); [done..| |done]. simpl. by intros ->. }
  destruct (callback t).
  - unfold questionTimeout. apply SessionInv_endQuestionAndMaybeNext.
    by apply (SessionInv_frame (clearTimeout (Some h) s) _ H1).
  - apply SessionInv_sendQuestion; simpl; [lia|].
    intros Hb%inBounds_spec. destruct HI as [_ _ _ Hr].
    apply Hr, inBounds_spec. lia.
Qed.

Lemma SessionInv_step e s :
  SessionInv questions s -> SessionInv questions (stateOf (step questions e s)).
Proof.
  intros HI. destruct e; simpl.
  - by apply SessionInv_joinQuiz.
  - by apply SessionInv_startQuiz.
  - apply SessionInv_restartQuiz.
  - by apply SessionInv_submitAnswer.
  - by apply SessionInv_nextQuestion.
  - apply (SessionInv_frame s _ HI); [done..|].
    unfold broadcastLeaderboard. by rewrite roomStatus_emit.
  - by apply SessionInv_leaveQuiz.
  - by apply SessionInv_disconnect.
  - by apply SessionInv_fire.
Qed.

Lemma reachable_SessionInv s : reachable questions s -> SessionInv questions s.
Proof.
  induction 1 as [|e s s' _ IH Hstep].
  - apply SessionInv_initial.
  - apply (SessionInv_step e) in IH. by rewrite Hstep in IH.
Qed.


(** ** Timers *)

Lemma TimersOk_initial : TimersOk initial.
Proof. split; simpl; [constructor | discriminate | constructor]. Qed.

Lemma TimersOk_frame s s' :
  TimersOk s ->
  timers s' = timers s -> nextTimerId s' = nextTimerId s ->
  questionTimer s' = questionTimer s ->
  TimersOk s'.
Proof. intros [H1 H2 H3] Ht Hn Hq. split; rewrite ?Ht, ?Hn, ?Hq; done. Qed.

Lemma TimersOk_clearTimeout h s : TimersOk s -> TimersOk (clearTimeout h s).
Proof.
  intros [H1 H2 H3]. destruct h as [n|]; [|done].
  split; simpl; [|done|].
  - rewrite Forall_forall in *. intros t [_ Ht]%list_elem_of_filter. auto.
  - rewrite Forall_forall in *. intros t [_ Ht]%list_elem_of_filter. auto.
Qed.

(** Once the held handle is cleared no question timeout is pending. *)
Lemma clear_held_no_question_timeout s :
  TimersOk s ->
  Forall (fun t => callback t <> QuestionTimeout)
         (timers (clearTimeout (questionTimer s) s)).
Proof.
  intros [_ _ H3]. rewrite Forall_forall in *.
  destruct (questionTimer s) as [n|] eqn:Hq; simpl.
  - intros t [Hne Ht]%list_elem_of_filter Hcb.
    specialize (H3 t Ht Hcb). congruence.
  - intros t Ht Hcb. specialize (H3 t Ht Hcb). congruence.
Qed.

Lemma roundStopped_no_question_timeout s :
  TimersOk s ->
  Forall (fun t => callback t <> QuestionTimeout) (timers (roundStopped s)).
Proof.
  intros H. apply (clear_held_no_question_timeout (withAccepting false s)).
  by apply (TimersOk_frame s).
Qed.

Lemma TimersOk_roundStopped s : TimersOk s -> TimersOk (roundStopped s).
Proof.
  intros H. unfold roundStopped. apply TimersOk_clearTimeout.
  by apply (TimersOk_frame s).
Qed.

Lemma TimersOk_endQuestionAndMaybeNext sm s :
  TimersOk s -> TimersOk (stateOf (endQuestionAndMaybeNext questions sm s)).
Proof.
  intros [H1 H2 H3]. unfold endQuestionAndMaybeNext.
  destruct (questionAt questions (currentQuestionIndex s)); [|done].
  split; simpl.
  - apply Forall_app; split.
    + eapply Forall_impl; [exact H1|]. simpl. lia.
    + repeat constructor.
  - intros h Hh. specialize (H2 h Hh). lia.
  - apply Forall_app; split; [done|].
    repeat constructor. discriminate.
Qed.

Lemma TimersOk_sendQuestion s :
  TimersOk s -> TimersOk (stateOf (sendQuestion questions s)).
Proof.
  intros Hok. unfold sendQuestion. simpl.
  destruct (_ <=? _).
  { by apply (TimersOk_frame s). }
  destruct (questionAt questions _) as [q|]; simpl.
  2: { by apply (TimersOk_frame s). }
  pose proof (clear_held_no_question_timeout s Hok) as Hno.
  destruct Hok as [H1 H2 H3].
  assert (Hsub : forall t, t ∈ timers (clearTimeout (questionTimer s) s) -> t ∈ timers s).
  { intros t. destruct (questionTimer s); simpl; [|done].
    by intros [_ ?]%list_elem_of_filter. }
  rewrite Forall_forall in *.
  destruct (questionTimer s) as [n|] eqn:Hq; simpl in *.
  all: split; simpl.
  all: try (intros h [= <-]; lia).
  all: rewrite Forall_forall; intros t [Ht| ->%list_elem_of_singleton]%elem_of_app;
    simpl; try done; try lia.
  all: try (specialize (H1 t (Hsub t Ht)); lia).
  all: intros Hcb; by destruct (Hno t Ht).
Qed.

Lemma TimersOk_resetGame rs s : TimersOk s -> TimersOk (resetGame rs s).
Proof.
  intros Hok. unfold resetGame.
  set (s0 := if rs then _ else s).
  assert (H0 : TimersOk s0) by (subst s0; destruct rs; [by apply (TimersOk_frame s)|done]).
  pose proof (clear_held_no_question_timeout s0 H0) as Hno.
  pose proof (TimersOk_clearTimeout (questionTimer s0) s0 H0) as [H1 H2 H3].
  split; simpl.
  - destruct (questionTimer s0); simpl in *; done.
  - discriminate.
  - rewrite Forall_forall in *. intros t Ht Hcb. exfalso.
    apply (Hno t); [|done]. destruct (questionTimer s0); simpl in *; done.
Qed.

Lemma resetGame_no_question_timeout rs s :
  TimersOk s ->
  Forall (fun t => callback t <> QuestionTimeout) (timers (resetGame rs s)).
Proof.
  intros Hok. unfold resetGame.
  set (s0 := if rs then _ else s).
  assert (H0 : TimersOk s0) by (subst s0; destruct rs; [by apply (TimersOk_frame s)|done]).
  pose proof (clear_held_no_question_timeout s0 H0) as Hno.
  clearbody s0. simpl. destruct (questionTimer s0); simpl in *; exact Hno.
Qed.

Lemma TimersOk_answerRecorded sid q a pl s :
  TimersOk s -> TimersOk (answerRecorded sid q a pl s).
Proof.
  intros H. unfold answerRecorded.
  apply (TimersOk_frame s _ H); by case_bool_decide.
Qed.

Lemma TimersOk_step e s :
  TimersOk s -> TimersOk (stateOf (step questions e s)).
Proof.
  intros Hok. destruct e as [sid nick| |? rs|sid qi a| | |sid|sid|h]; simpl.
  - unfold joinQuiz. destruct nick as [[|c n]|]; simpl; by apply (TimersOk_frame s).
  - unfold startQuiz. destruct (negb _); [done|].
    apply TimersOk_sendQuestion. by apply (TimersOk_frame s).
  - unfold restartQuiz. apply TimersOk_sendQuestion.
    apply (TimersOk_frame (resetGame (default true rs) s)); [|done..].
    by apply TimersOk_resetGame.
  - destruct (submitAnswer_inv sid qi a s) as [->|(q & Hacc & Hq & -> & Hnew)]; [done|].
    destruct (getPlayer sid (players s)) as [pl|] eqn:Hp.
    + rewrite (submitAnswer_accepted _ _ _ pl) by done. simpl.
      destruct (_ && _)%bool.
      * by apply TimersOk_endQuestionAndMaybeNext, TimersOk_roundStopped,
          TimersOk_answerRecorded.
      * by apply TimersOk_answerRecorded.
    + rewrite submitAnswer_unregistered by done. by apply (TimersOk_frame s).
  - unfold nextQuestion. destruct (_ =? _); [done|].
    by apply TimersOk_endQuestionAndMaybeNext, (TimersOk_roundStopped s).
  - by apply (TimersOk_frame s).
  - by apply (TimersOk_frame s).
  - unfold disconnect. set (s1 := withPlayers _ s).
    assert (H1 : TimersOk s1) by (by apply (TimersOk_frame s)).
    destruct (_ && _)%bool.
    + by apply TimersOk_endQuestionAndMaybeNext, (TimersOk_roundStopped s1).
    + by apply (TimersOk_frame s1).
  - unfold fire. destruct (findTimer h s) as [t|]; [|done].
    pose proof (TimersOk_clearTimeout (Some h) s Hok) as H1.
    destruct (callback t).
    + unfold questionTimeout. apply TimersOk_endQuestionAndMaybeNext.
      by apply (TimersOk_frame (clearTimeout (Some h) s)).
    + by apply TimersOk_sendQuestion.
Qed.

Lemma reachable_TimersOk s : reachable questions s -> TimersOk s.
Proof.
  induction 1 as [|e s s' _ IH Hstep].
  - apply TimersOk_initial.
  - apply (TimersOk_step e) in IH. by rewrite Hstep in IH.
Qed.

Lemma run_reachable es s s' :
  reachable questions s -> run questions es s = Done s' -> reachable questions s'.
Proof.
  revert s. induction es as [|e es IH]; simpl; intros s Hs.
  - by intros [= <-].
  - destruct (step questions e s) as [s1|s1] eqn:E; [|discriminate].
    apply IH. by apply (reachable_step _ e s).
Qed.


Lemma SessionInv_AcceptingOnlyRunning s :
  SessionInv questions s -> AcceptingOnlyRunning questions s.
Proof.
  intros [Hl Hi Ha Hr] Hacc.
  assert (Hb : 0 <= currentQuestionIndex s < Z.of_nat (length questions)).
  { split; [|auto].
    destruct (Z.eq_dec (currentQuestionIndex s) (-1)) as [E|E]; [|lia].
    destruct (Hi E). congruence. }
  pose proof (proj2 (inBounds_spec _) Hb) as Hb'.
  unfold statusForJoiner. rewrite Hb'. auto.
Qed.

(** C7.  In every reachable state [acceptingAnswers] is true only while the
    session is running (the status last sent to the room, and the one a
    joiner is told) and [currentQuestionIndex] is a position of the catalog;
    and whatever runs next (a join, start, restart, answer, host advance,
    leaderboard request, leave, disconnect, or a timeout: the end of the
    question's time or the advance after the pause) leaves a state, returned
    or thrown in, where this still holds. *)
Theorem accepting_only_while_running s :
  reachable questions s ->
  AcceptingOnlyRunning questions s /\
  forall e, AcceptingOnlyRunning questions (stateOf (step questions e s)).
Proof.
  intros Hs%reachable_SessionInv. split.
  - by apply SessionInv_AcceptingOnlyRunning.
  - intros e. by apply SessionInv_AcceptingOnlyRunning, SessionInv_step.
Qed.

(** ** Sending a question *)

Lemma sendQuestion_serves s q :
  questionAt questions (currentQuestionIndex s + 1) = Some q ->
  sendQuestion questions s =
  Done (mkServer (players s) (currentQuestionIndex s + 1) true
          (Some (nextTimerId s)) ∅
          (timers (clearTimeout (questionTimer s) s)
             ++ [mkTimer (nextTimerId s) QuestionTimeout QUESTION_DURATION_MS])
          (S (nextTimerId s))
          (outbox s ++ [ToRoom (QuestionMsg (qid q) (text q) (options q)
                                  (currentQuestionIndex s + 1)
                                  (Z.of_nat (length questions))
                                  QUESTION_DURATION_MS)])).
Proof.
  intros Hq. pose proof (questionAt_Some_inBounds _ _ Hq) as Hb%inBounds_spec.
  unfold sendQuestion. simpl.
  destruct (Z.leb_spec (Z.of_nat (length questions)) (currentQuestionIndex s + 1));
    [lia|].
  rewrite Hq. by destruct (questionTimer s).
Qed.

Lemma sendQuestion_finishes s :
  Z.of_nat (length questions) <= currentQuestionIndex s + 1 ->
  sendQuestion questions s =
  Done (mkServer (players s) (currentQuestionIndex s + 1) false
          (questionTimer s) ∅ (timers s) (nextTimerId s)
          (outbox s ++ [ToRoom (QuizState Finished);
                        ToRoom (LeaderboardMsg (leaderboardOf (players s)))])).
Proof.
  intros Hfin. unfold sendQuestion. simpl.
  destruct (Z.leb_spec (Z.of_nat (length questions)) (currentQuestionIndex s + 1));
    [|lia].
  unfold broadcastLeaderboard, emit. simpl. by rewrite <- app_assoc.
Qed.

Lemma endQuestionAndMaybeNext_ends sm s q :
  questionAt questions (currentQuestionIndex s) = Some q ->
  endQuestionAndMaybeNext questions sm s =
  Done (mkServer (players s) (currentQuestionIndex s) (acceptingAnswers s)
          (questionTimer s) (answeredThisRound s)
          (timers s ++ [mkTimer (nextTimerId s) AdvancePause 1500])
          (S (nextTimerId s))
          (outbox s ++ [ToRoom (AnswerResult (qid q) (answerIndex q) sm);
                        ToRoom (LeaderboardMsg (leaderboardOf (players s)))])).
Proof.
  intros Hq. unfold endQuestionAndMaybeNext. rewrite Hq.
  unfold broadcastLeaderboard, emit. simpl. by rewrite <- app_assoc.
Qed.

(** C8.  [startQuiz] once the quiz has started ([currentQuestionIndex] is
    not -1) changes nothing: the state it returns in, the log of emitted
    events included, is the state it was called in.  With the index at -1 it
    sends [quizState: running] to the room and runs [sendQuestion]: the
    index becomes 0 and, when the catalog has a first question, that
    question is sent, answers are accepted and the room's status is
    running. *)
Theorem startQuiz_only_once s :
  (currentQuestionIndex s <> -1 -> startQuiz questions s = Done s) /\
  (currentQuestionIndex s = -1 ->
   startQuiz questions s =
     sendQuestion questions (emit (ToRoom (QuizState Running)) s) /\
   roomStatus (emit (ToRoom (QuizState Running)) s) = Running /\
   exists s',
     startQuiz questions s = Done s' /\
     currentQuestionIndex s' = 0 /\
     players s' = players s /\
     forall q, questionAt questions 0 = Some q ->
       acceptingAnswers s' = true /\
       roomStatus s' = Running /\
       emittedSince s s' =
         [ToRoom (QuizState Running);
          ToRoom (QuestionMsg (qid q) (text q) (options q) 0
                    (Z.of_nat (length questions)) QUESTION_DURATION_MS)]).
Proof.
  unfold startQuiz. split; intros Hidx.
  - by destruct (Z.eqb_spec (currentQuestionIndex s) (-1)).
  - destruct (Z.eqb_spec (currentQuestionIndex s) (-1)); [simpl|done].
    split; [done|]. split; [by rewrite roomStatus_emit|].
    destruct (questionAt questions 0) as [q|] eqn:Hq.
    + rewrite (sendQuestion_serves _ q) by (simpl; by rewrite Hidx).
      eexists. split; [done|]. simpl. rewrite Hidx.
      split; [done|]. split; [done|].
      intros q' [= <-]. split; [done|]. split.
      * unfold roomStatus. simpl. rewrite !fold_left_app. done.
      * apply emittedSince_outbox. simpl. by rewrite <- app_assoc.
    + rewrite sendQuestion_finishes.
      * eexists. split; [done|]. simpl. rewrite Hidx. done.
      * simpl. rewrite Hidx.
        destruct (Z_lt_le_dec 0 (Z.of_nat (length questions))) as [Hlt|]; [|lia].
        destruct (inBounds_questionAt 0) as [q' Hq']; [apply inBounds_spec; lia|].
        congruence.
Qed.

(** C10, as the server has it.  (A join that is refused, its nickname
    empty or no string, leaves the entry and its score alone.)
    A [joinQuiz] that passes the nickname check, from a connection
    that already has an entry in [players], puts a fresh entry in its place,
    with the new nickname and score 0, whatever the old score and whatever
    the state of the session; the entry is replaced, not added, and the
    other players keep theirs. *)
Theorem rejoin_resets_score sid c n old s :
  getPlayer sid (players s) = Some old ->
  exists s',
    joinQuiz questions sid (Some (c :: n)) s = Done s' /\
    getPlayer sid (players s') = Some (mkPlayer (slice0 20 (trim (c :: n))) 0) /\
    length (players s') = length (players s) /\
    (forall sid', sid' <> sid ->
       getPlayer sid' (players s') = getPlayer sid' (players s)) /\
    currentQuestionIndex s' = currentQuestionIndex s /\
    acceptingAnswers s' = acceptingAnswers s /\
    answeredThisRound s' = answeredThisRound s.
Proof.
  intros Hold. eexists. split; [done|]. simpl.
  split; [apply getPlayer_setPlayer_eq|].
  split; [by apply (setPlayer_length_present _ _ old)|].
  split; [|done].
  intros sid' Hne. by apply getPlayer_setPlayer_ne.
Qed.


(** ** Answers *)

Lemma answerRecorded_fields sid q a pl s :
  let s1 := answerRecorded sid q a pl s in
  players s1 =
    (if bool_decide (a = Some (answerIndex q))
     then setPlayer sid (mkPlayer (nickname pl) (score pl + 10)) (players s)
     else players s) /\
  currentQuestionIndex s1 = currentQuestionIndex s /\
  acceptingAnswers s1 = acceptingAnswers s /\
  questionTimer s1 = questionTimer s /\
  answeredThisRound s1 = {[sid]} ∪ answeredThisRound s /\
  timers s1 = timers s /\
  nextTimerId s1 = nextTimerId s /\
  outbox s1 =
    outbox s ++ [ToSocket sid (AnswerSaved (qid q) (answerIndex q)
                                 (bool_decide (a = Some (answerIndex q))));
                 ToRoom (LeaderboardMsg (leaderboardOf (players s1)))].
Proof.
  unfold answerRecorded. case_bool_decide; simpl; rewrite <- app_assoc; done.
Qed.

Lemma answerRecorded_count sid q a pl s :
  getPlayer sid (players s) = Some pl ->
  activePlayerCount (answerRecorded sid q a pl s) = activePlayerCount s.
Proof.
  intros Hp. unfold activePlayerCount.
  destruct (answerRecorded_fields sid q a pl s) as (-> & _).
  case_bool_decide; [|done]. by apply (setPlayer_length_present _ _ pl).
Qed.

Lemma size_record_answer (sid : string) (A : gset string) :
  sid ∉ A -> size ({[sid]} ∪ A) = S (size A).
Proof.
  intros Hnew. rewrite size_union by set_solver. by rewrite size_singleton.
Qed.

Lemma roundStopped_fields s :
  let s1 := roundStopped s in
  players s1 = players s /\
  currentQuestionIndex s1 = currentQuestionIndex s /\
  acceptingAnswers s1 = false /\
  questionTimer s1 = questionTimer s /\
  answeredThisRound s1 = answeredThisRound s /\
  nextTimerId s1 = nextTimerId s /\
  outbox s1 = outbox s.
Proof.
  unfold roundStopped. cbv zeta.
  destruct (questionTimer s) eqn:E; simpl; rewrite ?E; done.
Qed.

(** What an accepted answer of a registered player leads to. *)
Lemma submitAnswer_accepted_outcome sid q a pl s :
  acceptingAnswers s = true ->
  questionAt questions (currentQuestionIndex s) = Some q ->
  sid ∉ answeredThisRound s ->
  getPlayer sid (players s) = Some pl ->
  let s1 := answerRecorded sid q a pl s in
  let all := ((0 <? activePlayerCount s)%nat
              && (activePlayerCount s <=? S (size (answeredThisRound s)))%nat)%bool in
  exists s',
    submitAnswer questions sid (Some (qid q)) a s = Done s' /\
    players s' = players s1 /\
    currentQuestionIndex s' = currentQuestionIndex s /\
    answeredThisRound s' = {[sid]} ∪ answeredThisRound s /\
    acceptingAnswers s' = negb all /\
    timers s' =
      (if all
       then timers (roundStopped s1) ++ [mkTimer (nextTimerId s) AdvancePause 1500]
       else timers s) /\
    outbox s' =
      outbox s1 ++
      (if all
       then [ToRoom (AnswerResult (qid q) (answerIndex q) "All players answered");
             ToRoom (LeaderboardMsg (leaderboardOf (players s1)))]
       else []) /\
    (all = false -> s' = s1).
Proof.
  intros Hacc Hq Hnew Hp s1 all.
  rewrite (submitAnswer_accepted _ _ _ pl) by done. cbv zeta. fold s1.
  destruct (answerRecorded_fields sid q a pl s)
    as (Hpl & Hidx & Hac & Hqt & Hans & Htm & Hnx & Hout).
  fold s1 in Hpl, Hidx, Hac, Hqt, Hans, Htm, Hnx, Hout.
  pose proof (answerRecorded_count _ q a _ _ Hp) as Hcnt. fold s1 in Hcnt.
  rewrite Hans, (size_record_answer _ _ Hnew), Hcnt. fold all.
  clearbody s1. destruct all.
  - destruct (roundStopped_fields s1) as (Rpl & Ridx & Rac & Rqt & Rans & Rnx & Rout).
    rewrite (endQuestionAndMaybeNext_ends _ _ q) by (by rewrite Ridx, Hidx).
    eexists. split; [done|]. simpl.
    rewrite Rpl, Ridx, Rac, Rans, Rnx, Rout, Hidx, Hans, Hnx.
    repeat split; done.
  - exists s1. rewrite app_nil_r, Hac, Hacc. done.
Qed.




Lemma submitAnswer_accepted_ends sid q a pl s :
  acceptingAnswers s = true ->
  questionAt questions (currentQuestionIndex s) = Some q ->
  sid ∉ answeredThisRound s ->
  getPlayer sid (players s) = Some pl ->
  endsRoundWith "All players answered" s
    (submitAnswer questions sid (Some (qid q)) a s) =
  ((0 <? activePlayerCount s)%nat
   && (activePlayerCount s <=? S (size (answeredThisRound s)))%nat)%bool.
Proof.
  intros Hacc Hq Hnew Hp.
  destruct (submitAnswer_accepted_outcome sid q a pl s Hacc Hq Hnew Hp)
    as (s' & -> & Hpl & Hidx & Hans & Hac & Htm & Hem & Hsame).
  destruct (answerRecorded_fields sid q a pl s)
    as (_ & _ & _ & _ & _ & _ & _ & Hout).
  unfold endsRoundWith. simpl.
  rewrite Hout, <- app_assoc in Hem.
  rewrite (emittedSince_outbox _ _ _ Hem).
  by destruct (_ && _)%bool.
Qed.

Lemma quiet_submission sm sid qi a s s1 :
  submitAnswer questions sid qi a s = Done s1 ->
  outbox s1 = outbox s ->
  acceptingAnswers s1 = acceptingAnswers s ->
  timers s1 = timers s ->
  let out := submitAnswer questions sid qi a s in
  endsRoundWith sm s out = false /\
  acceptingAnswers (stateOf out) = acceptingAnswers s /\
  timers (stateOf out) = timers s /\
  existsb isAnyRoundEnd (emittedSince s (stateOf out)) = false.
Proof.
  intros Hout Hbox Hacc Htm. cbv zeta. unfold endsRoundWith. rewrite Hout.
  cbn [stateOf]. unfold emittedSince. rewrite Hbox, drop_all. done.
Qed.

(** C6, as the server has it.  A [submitAnswer] ends the round early, with
    the summary "All players answered", exactly when it is accepted
    (answers are accepted, the payload's id is the current question's, the
    connection is not yet in [answeredThisRound]), the connection has an
    entry in [players], and, the connection once recorded, the connections
    in [answeredThisRound] are at least as many as the players, of which
    there is at least one.  Then answers stop being accepted, the result
    goes to the room and the advance is scheduled.  Otherwise nothing ends:
    answers stay as they were and the queue of timeouts is untouched; in
    particular no submission, accepted or not, from a player or not, ends
    the round when fewer connections are recorded than there are players or
    when there is no player. *)
Theorem submit_ends_round_when_all_answered sid qi a s :
  let out := submitAnswer questions sid qi a s in
  let recorded := size (answeredThisRound (stateOf out)) in
  let active := activePlayerCount (stateOf out) in
  (endsRoundWith "All players answered" s out = true <->
   acceptingAnswers s = true /\
   (exists q, questionAt questions (currentQuestionIndex s) = Some q /\
              qi = Some (qid q)) /\
   (sid ∉ answeredThisRound s) /\
   is_Some (getPlayer sid (players s)) /\
   (0 < active)%nat /\ (active <= recorded)%nat) /\
  (endsRoundWith "All players answered" s out = true ->
   exists q s',
     questionAt questions (currentQuestionIndex s) = Some q /\
     out = Done s' /\
     acceptingAnswers s' = false /\
     ToRoom (AnswerResult (qid q) (answerIndex q) "All players answered")
       ∈ emittedSince s s' /\
     mkTimer (nextTimerId s) AdvancePause 1500 ∈ timers s') /\
  (endsRoundWith "All players answered" s out = false ->
   acceptingAnswers (stateOf out) = acceptingAnswers s /\
   timers (stateOf out) = timers s /\
   existsb isAnyRoundEnd (emittedSince s (stateOf out)) = false) /\
  ((recorded < active)%nat \/ active = 0%nat ->
   endsRoundWith "All players answered" s out = false).
Proof.
  cbv zeta.
  (* a submission that ends nothing, for a reason that refutes the condition *)
  assert (Hquiet : forall s1 (G : Prop),
            submitAnswer questions sid qi a s = Done s1 ->
            outbox s1 = outbox s ->
            acceptingAnswers s1 = acceptingAnswers s ->
            timers s1 = timers s ->
            ~ G ->
            (endsRoundWith "All players answered" s
               (submitAnswer questions sid qi a s) = true <-> G) /\
            (endsRoundWith "All players answered" s
               (submitAnswer questions sid qi a s) = true ->
             exists q s',
               questionAt questions (currentQuestionIndex s) = Some q /\
               submitAnswer questions sid qi a s = Done s' /\
               acceptingAnswers s' = false /\
               ToRoom (AnswerResult (qid q) (answerIndex q) "All players answered")
                 ∈ emittedSince s s' /\
               mkTimer (nextTimerId s) AdvancePause 1500 ∈ timers s') /\
            (endsRoundWith "All players answered" s
               (submitAnswer questions sid qi a s) = false ->
             acceptingAnswers (stateOf (submitAnswer questions sid qi a s))
               = acceptingAnswers s /\
             timers (stateOf (submitAnswer questions sid qi a s)) = timers s /\
             existsb isAnyRoundEnd
               (emittedSince s (stateOf (submitAnswer questions sid qi a s))) = false) /\
            (endsRoundWith "All players answered" s
               (submitAnswer questions sid qi a s) = false)).
  { intros s1 G Hout Hbox Hacc Htm HG.
    destruct (quiet_submission "All players answered" sid qi a s s1 Hout Hbox Hacc Htm)
      as (Hf & Ha & Ht & He).
    rewrite Hf. split; [split; [discriminate|done]|].
    split; [discriminate|]. split; [done|done]. }
  assert (Hwrap : forall (G F : Prop) P2 P3,
            ((endsRoundWith "All players answered" s
                (submitAnswer questions sid qi a s) = true <-> G) /\ P2 /\ P3 /\
             endsRoundWith "All players answered" s
               (submitAnswer questions sid qi a s) = false) ->
            (endsRoundWith "All players answered" s
               (submitAnswer questions sid qi a s) = true <-> G) /\ P2 /\ P3 /\
            (F -> endsRoundWith "All players answered" s
                    (submitAnswer questions sid qi a s) = false)).
  { intros G F P2 P3 (H1 & H2 & H3 & H4). auto. }
  destruct (acceptingAnswers s) eqn:Hacc.
  2: { apply Hwrap, (Hquiet s); try done.
       - by apply submitAnswer_closed.
       - by intros (? & _). }
  destruct (questionAt questions (currentQuestionIndex s)) as [q|] eqn:Hq.
  2: { apply Hwrap, (Hquiet s); try done.
       - unfold submitAnswer. by rewrite Hacc, Hq.
       - by intros (_ & (q & ? & _) & _). }
  destruct (decide (qi = Some (qid q))) as [->|Hne].
  2: { apply Hwrap, (Hquiet s); try done.
       - unfold submitAnswer. rewrite Hacc, Hq. simpl.
         by rewrite bool_decide_eq_false_2.
       - intros (_ & (q' & [= <-] & ?) & _). done. }
  destruct (decide (sid ∈ answeredThisRound s)) as [Hin|Hnew].
  { apply Hwrap, (Hquiet s); try done.
    - by apply submitAnswer_already.
    - by intros (_ & _ & ? & _). }
  destruct (getPlayer sid (players s)) as [pl|] eqn:Hp.
  2: { apply Hwrap,
         (Hquiet (withAnswered ({[sid]} ∪ answeredThisRound s) s)); try done.
       - by apply submitAnswer_unregistered.
       - intros (_ & _ & _ & [? ?] & _). done. }
  (* an accepted answer of a registered player *)
  pose proof (submitAnswer_accepted_ends sid q a pl s Hacc Hq Hnew Hp) as Hends.
  destruct (submitAnswer_accepted_outcome sid q a pl s Hacc Hq Hnew Hp)
    as (s' & Hs' & Hpl & Hidx & Hans & Hac & Htm & Hem & Hsame).
  destruct (answerRecorded_fields sid q a pl s)
    as (_ & _ & Hac1 & _ & _ & Htm1 & _ & Hout1).
  pose proof (answerRecorded_count sid q a pl s Hp) as Hcnt.
  rewrite Hs'. cbn [stateOf]. rewrite Hs' in Hends.
  assert (Hrec : size (answeredThisRound s') = S (size (answeredThisRound s)))
    by (by rewrite Hans, size_record_answer).
  assert (Hact : activePlayerCount s' = activePlayerCount s)
    by (unfold activePlayerCount in *; by rewrite Hpl).
  rewrite Hrec, Hact, Hends.
  destruct ((0 <? activePlayerCount s)%nat
            && (activePlayerCount s <=? S (size (answeredThisRound s)))%nat)%bool
    eqn:Hall.
  - apply andb_prop in Hall as [Hpos%Nat.ltb_lt Hle%Nat.leb_le].
    split. { split; [|done]. intros _. repeat split; eauto. }
    split.
    { intros _. exists q, s'. split; [done|]. split; [done|]. split; [done|].
      split.
      - rewrite Hout1, <- app_assoc in Hem.
        rewrite (emittedSince_outbox _ _ _ Hem).
        apply list_elem_of_In. simpl. tauto.
      - rewrite Htm. apply elem_of_app. right. by apply list_elem_of_singleton. }
    split; [discriminate|]. intros [Hlt|Hz]; lia.
  - split.
    { split; [discriminate|]. intros (_ & _ & _ & _ & Hpos & Hle).
      apply andb_false_iff in Hall as [Hn%Nat.ltb_ge|Hn%Nat.leb_gt]; lia. }
    split; [discriminate|].
    split; [|done]. intros _. rewrite (Hsame eq_refl).
    split; [by rewrite Hac1|]. split; [done|].
    rewrite (emittedSince_outbox _ _ _ Hout1). done.
Qed.

(** C9.  An answer, sent while answers are accepted and for the active
    question, from a connection that has no entry in [players] and has not
    answered yet, puts the connection in [answeredThisRound] and changes
    nothing else: no score, no event.  The record is then one larger while
    the number of players is the same, so the next accepted answer of a
    registered player ends the round early as soon as the players are no
    more than the connections recorded before plus two, where without the
    unregistered answer it would take plus one. *)
Theorem unregistered_answer_is_counted sid q a s :
  acceptingAnswers s = true ->
  questionAt questions (currentQuestionIndex s) = Some q ->
  sid ∉ answeredThisRound s ->
  getPlayer sid (players s) = None ->
  let s1 := withAnswered ({[sid]} ∪ answeredThisRound s) s in
  submitAnswer questions sid (Some (qid q)) a s = Done s1 /\
  sid ∈ answeredThisRound s1 /\
  size (answeredThisRound s1) = S (size (answeredThisRound s)) /\
  activePlayerCount s1 = activePlayerCount s /\
  emittedSince s s1 = [] /\
  forall sid2 a2 pl2,
    sid2 ∉ answeredThisRound s1 ->
    getPlayer sid2 (players s) = Some pl2 ->
    (endsRoundWith "All players answered" s1
       (submitAnswer questions sid2 (Some (qid q)) a2 s1) = true
     <-> (activePlayerCount s <= size (answeredThisRound s) + 2)%nat) /\
    (endsRoundWith "All players answered" s
       (submitAnswer questions sid2 (Some (qid q)) a2 s) = true
     <-> (activePlayerCount s <= size (answeredThisRound s) + 1)%nat).
Proof.
  intros Hacc Hq Hnew Hp s1.
  split; [by apply submitAnswer_unregistered|].
  split; [simpl; apply elem_of_union; left; by apply elem_of_singleton|].
  split; [by apply size_record_answer|].
  split; [done|].
  split; [unfold emittedSince; simpl; by rewrite drop_all|].
  intros sid2 a2 pl2 Hnew2 Hp2.
  pose proof (getPlayer_Some_length _ _ _ Hp2) as Hpos.
  assert (Hnew2' : sid2 ∉ answeredThisRound s).
  { intros Hin. apply Hnew2. simpl. apply elem_of_union. by right. }
  split.
  - rewrite (submitAnswer_accepted_ends sid2 q a2 pl2 s1) by done.
    change (activePlayerCount s1) with (activePlayerCount s).
    change (answeredThisRound s1) with ({[sid]} ∪ answeredThisRound s).
    rewrite size_record_answer by done.
    rewrite andb_true_iff, Nat.ltb_lt, Nat.leb_le.
    unfold activePlayerCount in *. lia.
  - rewrite (submitAnswer_accepted_ends sid2 q a2 pl2 s) by done.
    rewrite andb_true_iff, Nat.ltb_lt, Nat.leb_le.
    unfold activePlayerCount in *. lia.
Qed.


(** ** One answer per round *)

Lemma sendQuestion_answered s s' :
  sendQuestion questions s = Done s' -> answeredThisRound s' = ∅.
Proof.
  unfold sendQuestion. simpl. destruct (_ <=? _).
  - by intros [= <-].
  - destruct (questionAt questions _); [|discriminate].
    destruct (questionTimer s); by intros [= <-].
Qed.

Lemma endQuestionAndMaybeNext_answered sm s s' :
  endQuestionAndMaybeNext questions sm s = Done s' ->
  answeredThisRound s' = answeredThisRound s.
Proof.
  unfold endQuestionAndMaybeNext.
  destruct (questionAt questions _); [|discriminate]. by intros [= <-].
Qed.

(** A connection stays in [answeredThisRound] until the record is started
    afresh, which only [sendQuestion] and [resetGame] do: while the round
    lasts, whatever else happens, its further answers are ignored. *)
Lemma answered_until_next_round e s s' sid :
  step questions e s = Done s' ->
  sid ∈ answeredThisRound s ->
  sid ∈ answeredThisRound s' \/ answeredThisRound s' = ∅.
Proof.
  intros Hstep Hin.
  destruct e as [sid0 nick| |? rs|sid0 qi a| | |sid0|sid0|h]; simpl in Hstep.
  - left. unfold joinQuiz in Hstep.
    destruct nick as [[|c n]|]; by injection Hstep as <-.
  - unfold startQuiz in Hstep. destruct (negb _).
    + left. by injection Hstep as <-.
    + right. by apply sendQuestion_answered in Hstep.
  - right. by apply sendQuestion_answered in Hstep.
  - left.
    destruct (submitAnswer_inv sid0 qi a s) as [Hsame|(q & Hacc & Hq & -> & Hnew)].
    { rewrite Hsame in Hstep. by injection Hstep as <-. }
    destruct (getPlayer sid0 (players s)) as [pl|] eqn:Hp.
    + destruct (submitAnswer_accepted_outcome sid0 q a pl s Hacc Hq Hnew Hp)
        as (s1 & Hs1 & _ & _ & Hans & _).
      rewrite Hs1 in Hstep. injection Hstep as <-.
      rewrite Hans. apply elem_of_union. by right.
    + rewrite submitAnswer_unregistered in Hstep by done.
      injection Hstep as <-. simpl. apply elem_of_union. by right.
  - left. unfold nextQuestion in Hstep. destruct (_ =? _).
    + by injection Hstep as <-.
    + apply (endQuestionAndMaybeNext_answered _ (roundStopped s)) in Hstep.
      rewrite Hstep.
      by destruct (roundStopped_fields s) as (_ & _ & _ & _ & -> & _).
  - left. by injection Hstep as <-.
  - left. by injection Hstep as <-.
  - left. unfold disconnect in Hstep. set (s1 := withPlayers _ s) in *.
    destruct (_ && _)%bool.
    + apply (endQuestionAndMaybeNext_answered _ (roundStopped s1)) in Hstep.
      rewrite Hstep.
      by destruct (roundStopped_fields s1) as (_ & _ & _ & _ & -> & _).
    + by injection Hstep as <-.
  - unfold fire in Hstep. destruct (findTimer h s) as [t|].
    2: { left. by injection Hstep as <-. }
    destruct (callback t).
    + left. apply endQuestionAndMaybeNext_answered in Hstep. by rewrite Hstep.
    + right. by apply sendQuestion_answered in Hstep.
Qed.

(** ** Cancelling the question timeout *)

Lemma resetGame_fields b s :
  let s0 := resetGame b s in
  players s0 = (if b then zeroScores (players s) else players s) /\
  currentQuestionIndex s0 = -1 /\
  acceptingAnswers s0 = false /\
  questionTimer s0 = None /\
  answeredThisRound s0 = ∅ /\
  timers s0 = timers (clearTimeout (questionTimer s) s) /\
  nextTimerId s0 = nextTimerId s /\
  outbox s0 = outbox s.
Proof.
  unfold resetGame. destruct b; simpl; by destruct (questionTimer s).
Qed.

Lemma clearedAndArmed_cancels s s' :
  TimersOk s -> clearedAndArmed s s' -> cancelsQuestionTimeout s s'.
Proof.
  intros [H1 _ H3] Hca t Ht Hcb Hin.
  rewrite Forall_forall in H1, H3.
  apply list_elem_of_fmap in Hin as (t' & Hh & Ht').
  destruct (Hca t' Ht') as [[_ Hne]|Hfresh].
  - apply Hne. rewrite <- Hh. by apply H3.
  - specialize (H1 t Ht). lia.
Qed.

Lemma elem_of_cleared h s t :
  t ∈ timers (clearTimeout h s) -> t ∈ timers s /\ h <> Some (handle t).
Proof.
  destruct h as [n|]; simpl; [|done].
  intros [Hne Ht]%list_elem_of_filter. split; [done|]. congruence.
Qed.

Lemma clearedAndArmed_roundStopped_end sm s s' :
  endQuestionAndMaybeNext questions sm (roundStopped s) = Done s' ->
  clearedAndArmed s s'.
Proof.
  unfold endQuestionAndMaybeNext.
  destruct (questionAt questions _); [|discriminate].
  intros [= <-] t. simpl.
  destruct (roundStopped_fields s) as (_ & _ & _ & _ & _ & Hnx & _).
  intros [Ht| ->%list_elem_of_singleton]%elem_of_app.
  - left. by apply (elem_of_cleared _ (withAccepting false s)).
  - right. simpl. by rewrite Hnx.
Qed.

Lemma sendQuestion_cases s s' :
  sendQuestion questions s = Done s' ->
  (timers s' = timers s /\
   outbox s' = outbox s ++ [ToRoom (QuizState Finished);
                            ToRoom (LeaderboardMsg (leaderboardOf (players s)))]) \/
  (exists q,
     timers s' = timers (clearTimeout (questionTimer s) s)
                   ++ [mkTimer (nextTimerId s) QuestionTimeout QUESTION_DURATION_MS] /\
     outbox s' = outbox s ++ [ToRoom (QuestionMsg (qid q) (text q) (options q)
                                        (currentQuestionIndex s + 1)
                                        (Z.of_nat (length questions))
                                        QUESTION_DURATION_MS)]).
Proof.
  intros Hdone.
  destruct (Z.leb_spec (Z.of_nat (length questions)) (currentQuestionIndex s + 1))
    as [Hfin|Hin].
  - rewrite sendQuestion_finishes in Hdone by done.
    injection Hdone as <-. by left.
  - destruct (questionAt questions (currentQuestionIndex s + 1)) as [q|] eqn:Hq.
    + rewrite (sendQuestion_serves _ q) in Hdone by done.
      injection Hdone as <-. right. by exists q.
    + exfalso. unfold sendQuestion in Hdone. simpl in Hdone.
      destruct (Z.leb_spec (Z.of_nat (length questions)) (currentQuestionIndex s + 1));
        [lia|].
      by rewrite Hq in Hdone.
Qed.

Lemma clearedAndArmed_served s0 s s' :
  (forall t, t ∈ timers s -> t ∈ timers s0) ->
  questionTimer s = questionTimer s0 ->
  nextTimerId s = nextTimerId s0 ->
  timers s' = timers (clearTimeout (questionTimer s) s)
                ++ [mkTimer (nextTimerId s) QuestionTimeout QUESTION_DURATION_MS] ->
  clearedAndArmed s0 s'.
Proof.
  intros Hsub Hqt Hnx Htm t Ht. rewrite Htm in Ht.
  apply elem_of_app in Ht as [Ht| ->%list_elem_of_singleton].
  - left. apply elem_of_cleared in Ht as [Ht Hne]. rewrite <- Hqt. auto.
  - right. simpl. by rewrite Hnx.
Qed.

Lemma not_superseding_emits s s' es :
  outbox s' = outbox s ++ es ->
  existsb isQuestionServed es = false ->
  existsb isAnyRoundEnd es = false ->
  existsb isQuestionServed (emittedSince s s') = false /\
  existsb isAnyRoundEnd (emittedSince s s') = false.
Proof. intros Hout%emittedSince_outbox. by rewrite Hout. Qed.

Lemma findTimer_Some h s t :
  findTimer h s = Some t -> t ∈ timers s /\ handle t = h.
Proof.
  unfold findTimer. intros Hh%head_Some_elem_of.
  apply list_elem_of_filter in Hh as [? ?]. done.
Qed.

(** A step either clears the held question timeout, arming at most fresh
    ones, or is no restart and emits neither a question nor a round's
    result. *)
Lemma step_cleared_or_quiet e s s' :
  TimersOk s ->
  step questions e s = Done s' ->
  clearedAndArmed s s' \/
  (isRestart e = false /\
   existsb isQuestionServed (emittedSince s s') = false /\
   existsb isAnyRoundEnd (emittedSince s s') = false).
Proof.
  intros Hok Hstep.
  destruct e as [sid nick| |? rs|sid qi a| | |sid|sid|h]; simpl in Hstep.
  - (* joinQuiz *)
    right. split; [done|]. unfold joinQuiz in Hstep.
    destruct nick as [[|c n]|]; injection Hstep as <-.
    all: eapply not_superseding_emits;
      [unfold broadcastLeaderboard, emit; simpl; rewrite <- ?app_assoc; done|done..].
  - (* startQuiz *)
    unfold startQuiz in Hstep. destruct (negb _).
    { injection Hstep as <-. right. by rewrite emittedSince_refl. }
    apply sendQuestion_cases in Hstep as [[Htm Hout]|(q & Htm & Hout)].
    + right. split; [done|].
      eapply not_superseding_emits;
        [rewrite Hout; simpl; rewrite <- app_assoc; done|done..].
    + left. by apply (clearedAndArmed_served s (emit (ToRoom (QuizState Running)) s)).
  - (* restartQuiz *)
    left. unfold restartQuiz in Hstep.
    set (s0 := resetGame (default true rs) s) in *.
    destruct (resetGame_fields (default true rs) s)
      as (_ & _ & _ & _ & _ & Htm0 & Hnx & _).
    fold s0 in Htm0, Hnx.
    assert (Hs0 : forall t, t ∈ timers s0 ->
                    t ∈ timers s /\ questionTimer s <> Some (handle t)).
    { intros t. rewrite Htm0. apply elem_of_cleared. }
    clearbody s0.
    apply sendQuestion_cases in Hstep as [[Htm Hout]|(q & Htm & Hout)].
    + intros t Ht. rewrite Htm in Ht. left. by apply Hs0.
    + intros t Ht. rewrite Htm in Ht.
      apply elem_of_app in Ht as [Ht| ->%list_elem_of_singleton].
      * left. apply elem_of_cleared in Ht as [Ht _]. by apply Hs0.
      * right. simpl. by rewrite Hnx.
  - (* submitAnswer *)
    destruct (submitAnswer_inv sid qi a s) as [Hsame|(q & Hacc & Hq & -> & Hnew)].
    { rewrite Hsame in Hstep. injection Hstep as <-.
      right. by rewrite emittedSince_refl. }
    destruct (getPlayer sid (players s)) as [pl|] eqn:Hp.
    + rewrite (submitAnswer_accepted _ _ _ pl) in Hstep by done.
      cbv zeta in Hstep.
      destruct (answerRecorded_fields sid q a pl s)
        as (_ & _ & _ & Hqt & _ & Htm & Hnx & Hout).
      destruct (_ && _)%bool.
      * left. apply clearedAndArmed_roundStopped_end in Hstep.
        intros t Ht. destruct (Hstep t Ht) as [[Hin Hne]|Hfresh].
        -- left. rewrite <- Htm, <- Hqt. done.
        -- right. by rewrite <- Hnx.
      * injection Hstep as <-. right. split; [done|].
        by eapply not_superseding_emits.
    + rewrite submitAnswer_unregistered in Hstep by done.
      injection Hstep as <-. right. split; [done|].
      unfold emittedSince. simpl. by rewrite drop_all.
  - (* nextQuestion *)
    unfold nextQuestion in Hstep. destruct (_ =? _).
    { injection Hstep as <-. right. by rewrite emittedSince_refl. }
    left. by apply (clearedAndArmed_roundStopped_end _ s) in Hstep.
  - (* getLeaderboard *)
    injection Hstep as <-. right. split; [done|].
    by eapply not_superseding_emits.
  - (* leaveQuiz *)
    injection Hstep as <-. right. split; [done|].
    by eapply not_superseding_emits.
  - (* disconnect *)
    unfold disconnect in Hstep.
    set (s1 := withPlayers _ s) in *.
    destruct (_ && _)%bool.
    + left. by apply (clearedAndArmed_roundStopped_end _ s1) in Hstep.
    + injection Hstep as <-. right. split; [done|].
      by eapply not_superseding_emits.
  - (* a timeout runs *)
    unfold fire in Hstep.
    destruct (findTimer h s) as [t0|] eqn:Hf.
    2: { injection Hstep as <-. right. by rewrite emittedSince_refl. }
    apply findTimer_Some in Hf as [Ht0 Hh].
    destruct (callback t0) eqn:Hcb.
    + left. unfold questionTimeout, endQuestionAndMaybeNext in Hstep.
      destruct (questionAt questions _); [|discriminate].
      injection Hstep as <-. intros t. simpl.
      destruct Hok as [_ _ H3]. rewrite Forall_forall in H3.
      specialize (H3 t0 Ht0 Hcb). rewrite Hh in H3.
      intros [[Hne Ht]%list_elem_of_filter| ->%list_elem_of_singleton]%elem_of_app.
      * left. split; [done|]. rewrite H3. congruence.
      * right. simpl. lia.
    + apply sendQuestion_cases in Hstep as [[Htm Hout]|(q & Htm & Hout)].
      * right. split; [done|]. by eapply not_superseding_emits.
      * left. apply (clearedAndArmed_served s (clearTimeout (Some h) s)); try done.
        intros t [_ ?]%list_elem_of_filter. done.
Qed.

Lemma findTimer_not_pending h s : h ∉ pendingHandles s -> findTimer h s = None.
Proof.
  intros Hnin. destruct (findTimer h s) as [t|] eqn:Hf; [|done].
  apply findTimer_Some in Hf as [Ht Hh]. exfalso. apply Hnin.
  rewrite <- Hh. by apply list_elem_of_fmap_2.
Qed.

Lemma clearedAndArmed_held s s' h :
  TimersOk s -> clearedAndArmed s s' ->
  questionTimer s = Some h -> h ∉ pendingHandles s'.
Proof.
  intros [_ H2 _] Hca Hh Hin.
  apply list_elem_of_fmap in Hin as (t' & -> & Ht').
  destruct (Hca t' Ht') as [[_ Hne]|Hfresh]; [done|].
  specialize (H2 _ Hh). lia.
Qed.

(** C5, as the server has it.  (The timeout of the pause after a round is
    held nowhere and a restart leaves it pending; what follows is about the
    question's timeout.)
    [restartQuiz] from any reachable state is [resetGame] followed by
    what [startQuiz] does from index -1: [resetGame] leaves the index at -1,
    no answers accepted and an empty [answeredThisRound], and the handler
    then returns with the index at 0 and the record still empty.  With
    [resetScores] true (or absent, the default) every player is left with
    the same nickname and score 0; with [resetScores] false the players are
    untouched.  In both cases the question timeout that was pending, the one
    [questionTimer] held, is no longer pending, and when the catalog has a
    first question that question is sent and answers are accepted. *)
Theorem restartQuiz_resets rs s :
  reachable questions s ->
  let reset := default true rs in
  restartQuiz questions rs s = startQuiz questions (resetGame reset s) /\
  currentQuestionIndex (resetGame reset s) = -1 /\
  acceptingAnswers (resetGame reset s) = false /\
  answeredThisRound (resetGame reset s) = ∅ /\
  exists s',
    restartQuiz questions rs s = Done s' /\
    currentQuestionIndex s' = 0 /\
    players s' = (if reset then zeroScores (players s) else players s) /\
    (reset = true ->
     forall sid, getPlayer sid (players s') =
                 (fun p => mkPlayer (nickname p) 0) <$> getPlayer sid (players s)) /\
    answeredThisRound s' = ∅ /\
    cancelsQuestionTimeout s s' /\
    (forall h, questionTimer s = Some h -> h ∉ pendingHandles s') /\
    (forall q, questionAt questions 0 = Some q ->
       acceptingAnswers s' = true /\
       roomStatus s' = Running /\
       emittedSince s s' =
         [ToRoom (QuizState Running);
          ToRoom (QuestionMsg (qid q) (text q) (options q) 0
                    (Z.of_nat (length questions)) QUESTION_DURATION_MS)]).
Proof.
  intros Hok%reachable_TimersOk reset.
  assert (Hun : restartQuiz questions rs s =
                sendQuestion questions
                  (emit (ToRoom (QuizState Running)) (resetGame reset s))) by done.
  clearbody reset.
  destruct (resetGame_fields reset s)
    as (Hpl & Hidx & Hacc & Hqt & Hans & Htm & Hnx & Hout).
  assert (Hstart : restartQuiz questions rs s = startQuiz questions (resetGame reset s)).
  { rewrite Hun. unfold startQuiz. by rewrite Hidx. }
  split; [done|]. split; [done|]. split; [done|]. split; [done|].
  clear Hstart. set (r := resetGame reset s) in *. clearbody r.
  assert (Hex : exists s', restartQuiz questions rs s = Done s' /\
            currentQuestionIndex s' = 0 /\
            players s' = players r /\
            answeredThisRound s' = ∅ /\
            forall q, questionAt questions 0 = Some q ->
              acceptingAnswers s' = true /\
              roomStatus s' = Running /\
              outbox s' = outbox s ++
                [ToRoom (QuizState Running);
                 ToRoom (QuestionMsg (qid q) (text q) (options q) 0
                    (Z.of_nat (length questions)) QUESTION_DURATION_MS)]).
  { rewrite Hun.
    set (s0 := emit (ToRoom (QuizState Running)) r).
    assert (Hidx0 : currentQuestionIndex s0 + 1 = 0) by (simpl; rewrite Hidx; done).
    destruct (questionAt questions 0) as [q|] eqn:Hq.
    - rewrite (sendQuestion_serves _ q) by (by rewrite Hidx0).
      eexists. split; [done|]. simpl. rewrite Hidx, Hout.
      split; [done|]. split; [done|]. split; [done|].
      intros q' [= <-]. split; [done|]. split.
      + unfold roomStatus. simpl. rewrite !fold_left_app. done.
      + by rewrite <- app_assoc.
    - rewrite sendQuestion_finishes.
      + eexists. split; [done|]. simpl. rewrite Hidx. done.
      + rewrite Hidx0.
        destruct (Z_lt_le_dec 0 (Z.of_nat (length questions))) as [Hlt|]; [|lia].
        destruct (inBounds_questionAt 0) as [q' Hq']; [apply inBounds_spec; lia|].
        congruence. }
  destruct Hex as (s' & Hs' & Hi' & Hp' & Ha' & Hq').
  exists s'. split; [done|]. split; [done|].
  rewrite Hp', Hpl. split; [done|].
  split. { intros ->. intros sid. apply getPlayer_zeroScores. }
  split; [done|].
  assert (Hca : clearedAndArmed s s').
  { destruct (step_cleared_or_quiet (RestartQuiz "host"%string rs) s s' Hok Hs')
      as [Hca|(Hr & _)]; [done|discriminate]. }
  split; [by apply clearedAndArmed_cancels|].
  split; [intros h; by apply clearedAndArmed_held|].
  intros q Hq. destruct (Hq' q Hq) as (? & ? & Ho).
  split; [done|]. split; [done|]. by apply emittedSince_outbox.
Qed.


(** ** Joining and disconnecting *)

Lemma trim_all_space s : forallb isWhiteSpace s = true -> trim s = [].
Proof. intros H. unfold trim. by rewrite (trimStart_all_space _ H). Qed.

(** A nickname that is not a string, or the empty string, is refused: the
    sender alone gets the error and nothing else changes. *)
Lemma joinQuiz_refused sid nick s :
  nick = None \/ nick = Some [] ->
  joinQuiz questions sid nick s =
  Done (emit (ToSocket sid (ErrorMsg "Nickname is required")) s).
Proof. by intros [-> | ->]. Qed.

(** Any other nickname is accepted and stored trimmed, cut to 20 units. *)
Lemma joinQuiz_accepted sid c n s :
  exists s',
    joinQuiz questions sid (Some (c :: n)) s = Done s' /\
    getPlayer sid (players s') = Some (mkPlayer (slice0 20 (trim (c :: n))) 0) /\
    (length (slice0 20 (trim (c :: n))) <= 20)%nat /\
    emittedSince s s' =
      [ToSocket sid (QuizState (statusForJoiner questions s));
       ToRoom (LeaderboardMsg (leaderboardOf (players s')))].
Proof.
  eexists. split; [done|]. simpl.
  split; [apply getPlayer_setPlayer_eq|].
  split; [apply slice0_length|].
  apply emittedSince_outbox. unfold broadcastLeaderboard, emit. simpl.
  by rewrite <- app_assoc.
Qed.

(** The check comes before the trimming: a nickname made of white space
    only is accepted, and the player is stored with the empty nickname. *)
Lemma joinQuiz_blank_accepted sid c n s :
  forallb isWhiteSpace (c :: n) = true ->
  exists s',
    joinQuiz questions sid (Some (c :: n)) s = Done s' /\
    getPlayer sid (players s') = Some (mkPlayer [] 0).
Proof.
  intros Hws. destruct (joinQuiz_accepted sid c n s) as (s' & Hs' & Hp & _).
  exists s'. split; [done|]. by rewrite (trim_all_space _ Hws) in Hp.
Qed.

(** [disconnect] ends the round whenever answers are accepted and the
    connections recorded are at least as many as the players left, none
    left included. *)
Lemma disconnect_ends_round sid q s :
  acceptingAnswers s = true ->
  questionAt questions (currentQuestionIndex s) = Some q ->
  (length (deletePlayer sid (players s)) <= size (answeredThisRound s))%nat ->
  exists s',
    disconnect questions sid s = Done s' /\
    acceptingAnswers s' = false /\
    players s' = deletePlayer sid (players s) /\
    emittedSince s s' =
      [ToRoom (AnswerResult (qid q) (answerIndex q) "All remaining players answered");
       ToRoom (LeaderboardMsg (leaderboardOf (deletePlayer sid (players s))))].
Proof.
  intros Hacc Hq Hle. unfold disconnect. cbv zeta.
  set (s1 := withPlayers _ s).
  change (clearTimeout (questionTimer (withAccepting false s1))
            (withAccepting false s1)) with (roundStopped s1).
  assert (Hc : (acceptingAnswers s1
                && (activePlayerCount s1 <=? size (answeredThisRound s1))%nat)%bool
               = true).
  { apply andb_true_intro. split; [exact Hacc | by apply Nat.leb_le]. }
  rewrite Hc.
  destruct (roundStopped_fields s1) as (Rpl & Ridx & Rac & Rqt & Rans & Rnx & Rout).
  assert (Hq1 : questionAt questions (currentQuestionIndex (roundStopped s1)) = Some q)
    by (by rewrite Ridx).
  rewrite (endQuestionAndMaybeNext_ends _ _ q Hq1).
  eexists. split; [done|].
  cbn [acceptingAnswers players outbox]. rewrite Rac, Rpl, Rout.
  split; [done|]. split; [done|]. by apply emittedSince_outbox.
Qed.

Lemma disconnect_rebroadcasts sid s :
  acceptingAnswers s = false \/
  (size (answeredThisRound s) < length (deletePlayer sid (players s)))%nat ->
  disconnect questions sid s =
  Done (broadcastLeaderboard (withPlayers (deletePlayer sid (players s)) s)).
Proof.
  intros Hor. unfold disconnect. set (s1 := withPlayers _ s).
  replace (acceptingAnswers s1 && _)%bool with false; [done|].
  symmetry. apply andb_false_iff. destruct Hor as [Hacc|Hlt]; [by left|].
  right. by apply Nat.leb_gt.
Qed.


(** * More of the server *)

(** ** The leaderboard *)

Lemma insertRow_perm r rows : insertRow r rows ≡ₚ r :: rows.
Proof.
  induction rows as [|r' rows IH]; simpl; [done|].
  destruct (r.2 <? r'.2); [|done].
  rewrite IH. apply Permutation_swap.
Qed.

Lemma insertRow_descending r rows :
  descending rows -> descending (insertRow r rows).
Proof.
  unfold descending. induction 1 as [|r' rows Hs IH Hall]; simpl.
  - repeat constructor.
  - destruct (Z.ltb_spec r.2 r'.2) as [Hlt|Hge].
    + constructor; [done|].
      rewrite (insertRow_perm r rows). constructor; [lia|done].
    + constructor; [by constructor|].
      constructor; [done|].
      eapply Forall_impl; [exact Hall|]. simpl. intros x Hx. lia.
Qed.

Lemma insertRow_filter z r rows :
  filter (fun x => x.2 = z) (insertRow r rows) =
  filter (fun x => x.2 = z) (r :: rows).
Proof.
  induction rows as [|r' rows IH]; simpl; [done|].
  destruct (Z.ltb_spec r.2 r'.2) as [Hlt|Hge]; [|done].
  rewrite !filter_cons in *. rewrite IH.
  destruct (decide (r'.2 = z)), (decide (r.2 = z)); try done. lia.
Qed.

(** X1.  The leaderboard the server sends is in descending order of score. *)
Theorem leaderboard_descending ps : descending (leaderboardOf ps).
Proof.
  unfold leaderboardOf. induction ps as [|kp ps IH]; simpl.
  - constructor.
  - by apply insertRow_descending.
Qed.

(** X2.  The leaderboard has exactly the rows of the registry: every player
    once, nobody added. *)
Theorem leaderboard_permutation ps : leaderboardOf ps ≡ₚ rowsOf ps.
Proof.
  unfold leaderboardOf, rowsOf. induction ps as [|kp ps IH]; simpl; [done|].
  by rewrite insertRow_perm, IH.
Qed.

(** X3.  Players with the same score appear on the leaderboard in the order
    of the registry. *)
Theorem leaderboard_stable z ps :
  filter (fun r => r.2 = z) (leaderboardOf ps) =
  filter (fun r => r.2 = z) (rowsOf ps).
Proof.
  unfold leaderboardOf, rowsOf. induction ps as [|kp ps IH]; simpl; [done|].
  rewrite insertRow_filter, !filter_cons, IH. done.
Qed.


(** ** The registry *)

Lemma getPlayer_None_keys sid (ps : Players) :
  getPlayer sid ps = None <-> sid ∉ ps.*1.
Proof.
  induction ps as [|[k p] ps IH].
  - split; [intros _; apply not_elem_of_nil|done].
  - rewrite fmap_cons, not_elem_of_cons, <- IH. cbn [getPlayer fst].
    destruct (String.eqb_spec k sid) as [->|Hne].
    + split; [discriminate|]. by intros [? _].
    + split; [|by intros [_ ?]]. intros H. split; [congruence|done].
Qed.

Lemma getPlayer_Some_elem sid pl (ps : Players) :
  getPlayer sid ps = Some pl -> (sid, pl) ∈ ps.
Proof.
  induction ps as [|[k p] ps IH]; simpl; [discriminate|].
  destruct (String.eqb_spec k sid) as [->|Hne].
  - intros [= ->]. apply list_elem_of_here.
  - intros H. apply list_elem_of_further. auto.
Qed.

Lemma keys_setPlayer sid p (ps : Players) :
  (setPlayer sid p ps).*1 =
  match getPlayer sid ps with Some _ => ps.*1 | None => ps.*1 ++ [sid] end.
Proof.
  induction ps as [|[k q] ps IH]; [done|].
  cbn [setPlayer getPlayer].
  destruct (String.eqb k sid); [done|].
  rewrite !fmap_cons, IH. by destruct (getPlayer sid ps).
Qed.

Lemma keys_deletePlayer sid (ps : Players) :
  (deletePlayer sid ps).*1 = filter (fun k => k <> sid) ps.*1.
Proof.
  induction ps as [|[k q] ps IH]; [done|].
  cbn [deletePlayer]. rewrite fmap_cons, filter_cons. cbn [fst].
  destruct (String.eqb_spec k sid) as [->|Hne].
  - rewrite decide_False by (intros H; by apply H). done.
  - rewrite decide_True by done. by rewrite fmap_cons, IH.
Qed.

Lemma keys_zeroScores (ps : Players) : (zeroScores ps).*1 = ps.*1.
Proof.
  unfold zeroScores. induction ps as [|[k q] ps IH]; [done|].
  cbn [map]. by rewrite !fmap_cons, IH.
Qed.

Lemma length_setPlayer_absent sid p (ps : Players) :
  getPlayer sid ps = None -> length (setPlayer sid p ps) = S (length ps).
Proof.
  induction ps as [|[k q] ps IH]; simpl; [done|].
  destruct (String.eqb k sid); [discriminate|]. simpl. auto.
Qed.

Lemma deletePlayer_absent sid (ps : Players) :
  getPlayer sid ps = None -> deletePlayer sid ps = ps.
Proof.
  induction ps as [|[k q] ps IH]; simpl; [done|].
  destruct (String.eqb k sid); [discriminate|]. intros H. by rewrite IH.
Qed.

Lemma length_deletePlayer_present sid pl (ps : Players) :
  NoDup ps.*1 -> getPlayer sid ps = Some pl ->
  S (length (deletePlayer sid ps)) = length ps.
Proof.
  induction ps as [|[k q] ps IH]; simpl; [discriminate|].
  intros [Hk Hnd]%NoDup_cons.
  destruct (String.eqb_spec k sid) as [->|Hne].
  - intros _. rewrite deletePlayer_absent; [done|]. by apply getPlayer_None_keys.
  - intros H. simpl. by rewrite IH.
Qed.

Lemma getPlayer_deletePlayer_ne sid sid' (ps : Players) :
  sid <> sid' -> getPlayer sid' (deletePlayer sid ps) = getPlayer sid' ps.
Proof.
  intros Hne. induction ps as [|[k q] ps IH]; simpl; [done|].
  destruct (String.eqb_spec k sid) as [->|Hk]; simpl.
  - destruct (String.eqb_spec sid sid'); [done|exact IH].
  - by rewrite IH.
Qed.

Lemma RegistryChange_NoDup (ps ps' : Players) :
  RegistryChange ps ps' -> NoDup ps.*1 -> NoDup ps'.*1.
Proof.
  intros [|sid c n|sid| |sid pl Hpl] Hnd.
  - done.
  - rewrite keys_setPlayer. destruct (getPlayer sid ps) eqn:E; [done|].
    apply NoDup_app. split; [done|]. split; [|apply NoDup_singleton].
    intros k Hk ->%list_elem_of_singleton. by apply getPlayer_None_keys in E.
  - rewrite keys_deletePlayer. by apply NoDup_filter.
  - by rewrite keys_zeroScores.
  - rewrite keys_setPlayer. by rewrite Hpl.
Qed.

Lemma Forall_setPlayer (Q : Player -> Prop) sid p (ps : Players) :
  Q p -> Forall (fun kp => Q kp.2) ps -> Forall (fun kp => Q kp.2) (setPlayer sid p ps).
Proof.
  intros Hp. induction 1 as [|[k q] ps Hq Hall IH]; simpl.
  - by repeat constructor.
  - destruct (String.eqb k sid); constructor; done.
Qed.

Lemma Forall_deletePlayer (Q : Player -> Prop) sid (ps : Players) :
  Forall (fun kp => Q kp.2) ps -> Forall (fun kp => Q kp.2) (deletePlayer sid ps).
Proof.
  induction 1 as [|[k q] ps Hq Hall IH]; simpl; [constructor|].
  destruct (String.eqb k sid); [done|by constructor].
Qed.

Lemma RegistryChange_Forall (Q : Player -> Prop) (ps ps' : Players) :
  (forall c n, Q (mkPlayer (slice0 20 (trim (c :: n))) 0)) ->
  (forall p, Q p -> Q (mkPlayer (nickname p) 0)) ->
  (forall p, Q p -> Q (mkPlayer (nickname p) (score p + 10))) ->
  RegistryChange ps ps' ->
  Forall (fun kp => Q kp.2) ps -> Forall (fun kp => Q kp.2) ps'.
Proof.
  intros Hjoin Hzero Hplus [|sid c n|sid| |sid pl Hpl] Hall.
  - done.
  - by apply Forall_setPlayer.
  - by apply Forall_deletePlayer.
  - unfold zeroScores. apply Forall_map. simpl.
    eapply Forall_impl; [exact Hall|]. simpl. auto.
  - apply Forall_setPlayer; [|done]. apply Hplus.
    apply getPlayer_Some_elem in Hpl.
    rewrite Forall_forall in Hall. apply (Hall _ Hpl).
Qed.

Lemma endQuestionAndMaybeNext_players sm s :
  players (stateOf (endQuestionAndMaybeNext questions sm s)) = players s.
Proof.
  unfold endQuestionAndMaybeNext. by destruct (questionAt questions _).
Qed.

Lemma sendQuestion_players s :
  players (stateOf (sendQuestion questions s)) = players s.
Proof.
  unfold sendQuestion. simpl. destruct (_ <=? _); [done|].
  destruct (questionAt questions _); [|done]. by destruct (questionTimer s).
Qed.

Lemma roundStopped_players s : players (roundStopped s) = players s.
Proof. by destruct (roundStopped_fields s) as (-> & _). Qed.

(** Every handler and callback changes the registry in one of the five
    ways. *)
Lemma step_registry e s :
  RegistryChange (players s) (players (stateOf (step questions e s))).
Proof.
  destruct e as [sid nick| |? rs|sid qi a| | |sid|sid|h]; simpl.
  - unfold joinQuiz. destruct nick as [[|c n]|]; simpl; constructor.
  - unfold startQuiz. destruct (negb _); [constructor|].
    rewrite sendQuestion_players. constructor.
  - unfold restartQuiz. rewrite sendQuestion_players. cbn [players emit].
    destruct (resetGame_fields (default true rs) s) as (-> & _).
    destruct (default true rs); constructor.
  - destruct (submitAnswer_inv sid qi a s) as [->|(q & Hacc & Hq & -> & Hnew)];
      [constructor|].
    destruct (getPlayer sid (players s)) as [pl|] eqn:Hp.
    + destruct (submitAnswer_accepted_outcome sid q a pl s Hacc Hq Hnew Hp)
        as (s1 & Hs1 & Hpl & Hrest).
      rewrite Hs1. cbn [stateOf]. rewrite Hpl.
      destruct (answerRecorded_fields sid q a pl s) as (-> & _).
      case_bool_decide; by constructor.
    + rewrite submitAnswer_unregistered by done. constructor.
  - unfold nextQuestion. destruct (_ =? _); [constructor|].
    rewrite endQuestionAndMaybeNext_players.
    replace (players (clearTimeout _ _)) with (players s); [constructor|].
    symmetry. exact (roundStopped_players s).
  - constructor.
  - constructor.
  - unfold disconnect. set (s1 := withPlayers _ s).
    destruct (_ && _)%bool.
    + rewrite endQuestionAndMaybeNext_players.
      replace (players (clearTimeout _ _)) with (players s1); [constructor|].
      symmetry. exact (roundStopped_players s1).
    + constructor.
  - unfold fire. destruct (findTimer h s) as [t|]; [|constructor].
    destruct (callback t).
    + unfold questionTimeout. rewrite endQuestionAndMaybeNext_players. constructor.
    + rewrite sendQuestion_players. constructor.
Qed.

Lemma reachable_players (Q : Players -> Prop) s :
  Q [] ->
  (forall ps ps', RegistryChange ps ps' -> Q ps -> Q ps') ->
  reachable questions s -> Q (players s).
Proof.
  intros Hnil Hstep. induction 1 as [|e s s' _ IH Hs]; [done|].
  pose proof (step_registry e s) as Hch. rewrite Hs in Hch.
  by apply (Hstep _ _ Hch).
Qed.

Lemma reachable_RegistryOk s : reachable questions s -> RegistryOk s.
Proof.
  apply (reachable_players (fun ps => NoDup ps.*1)).
  - constructor.
  - apply RegistryChange_NoDup.
Qed.

(** X4.  In every reachable state the registry has at most one entry per
    connection, so [activePlayerCount] counts connections. *)
Theorem registry_one_entry_per_connection s :
  reachable questions s ->
  RegistryOk s /\ activePlayerCount s = size (list_to_set (C := gset string) (players s).*1).
Proof.
  intros Hnd%reachable_RegistryOk. split; [done|].
  unfold activePlayerCount. rewrite size_list_to_set by done.
  by rewrite length_fmap.
Qed.

(** X5.  Joining, leaving and disconnecting move the number of players by
    one at most: an accepted join of a new connection adds one player and a
    join of a present one adds none; in a reachable state [leaveQuiz] and
    [disconnect] take exactly one player away when the connection has an
    entry and none when it has not. *)
Theorem player_count_changes sid c n s :
  reachable questions s ->
  let joined := stateOf (joinQuiz questions sid (Some (c :: n)) s) in
  let left := stateOf (leaveQuiz sid s) in
  let gone := stateOf (disconnect questions sid s) in
  (getPlayer sid (players s) = None ->
   activePlayerCount joined = S (activePlayerCount s) /\
   activePlayerCount left = activePlayerCount s /\
   activePlayerCount gone = activePlayerCount s) /\
  (is_Some (getPlayer sid (players s)) ->
   activePlayerCount joined = activePlayerCount s /\
   S (activePlayerCount left) = activePlayerCount s /\
   S (activePlayerCount gone) = activePlayerCount s).
Proof.
  intros Hnd%reachable_RegistryOk joined left gone.
  assert (Hgone : players gone = deletePlayer sid (players s)).
  { unfold gone, disconnect. set (s1 := withPlayers _ s).
    destruct (_ && _)%bool; [|done].
    rewrite endQuestionAndMaybeNext_players. exact (roundStopped_players s1). }
  unfold activePlayerCount. rewrite Hgone. simpl. split.
  - intros Hno. rewrite (length_setPlayer_absent _ _ _ Hno).
    by rewrite (deletePlayer_absent _ _ Hno).
  - intros [pl Hpl]. rewrite (setPlayer_length_present _ _ pl) by done.
    by rewrite (length_deletePlayer_present _ pl).
Qed.

Lemma reachable_scores s :
  reachable questions s -> Forall (fun kp => scoreOk kp.2) (players s).
Proof.
  apply (reachable_players (fun ps => Forall (fun kp => scoreOk kp.2) ps)).
  - constructor.
  - intros ps ps'. apply RegistryChange_Forall; unfold scoreOk; simpl.
    + intros _ _. split; [lia|]. apply Z.divide_0_r.
    + intros _ _. split; [lia|]. apply Z.divide_0_r.
    + intros p [H0 Hd]. split; [lia|].
      apply Z.divide_add_r; [done|]. apply Z.divide_refl.
Qed.

(** X6.  In every reachable state every player's score is a non-negative
    multiple of 10. *)
Theorem scores_are_multiples_of_reward s sid p :
  reachable questions s ->
  getPlayer sid (players s) = Some p ->
  0 <= score p /\ (10 | score p).
Proof.
  intros Hall%reachable_scores Hp%getPlayer_Some_elem.
  rewrite Forall_forall in Hall. apply (Hall _ Hp).
Qed.


(** ** Nicknames *)

Lemma trimStart_suffix s : exists k, s = k ++ trimStart s.
Proof.
  induction s as [|a s [k IH]]; simpl; [by exists []|].
  destruct (isWhiteSpace a); [|by exists []].
  exists (a :: k). simpl. by rewrite <- IH.
Qed.

Lemma trim_no_leading_space s c n : trim s = c :: n -> isWhiteSpace c = false.
Proof.
  unfold trim, trimEnd. intros Ht.
  destruct (trimStart_suffix (rev (trimStart s))) as [k Hk].
  apply (f_equal (@rev N)) in Hk. rewrite rev_involutive, rev_app_distr, Ht in Hk.
  simpl in Hk. by apply trimStart_no_leading_space in Hk.
Qed.

Lemma slice0_cons_inv m s c n : slice0 m s = c :: n -> exists n', s = c :: n'.
Proof.
  unfold slice0. destruct m, s; simpl; try discriminate.
  intros [= -> _]. eauto.
Qed.

Lemma joined_nicknameOk c n : nicknameOk (mkPlayer (slice0 20 (trim (c :: n))) 0).
Proof.
  split; simpl; [apply slice0_length|].
  intros c' n' [n'' Hn]%slice0_cons_inv. by apply trim_no_leading_space in Hn.
Qed.

Lemma reachable_nicknames s :
  reachable questions s -> Forall (fun kp => nicknameOk kp.2) (players s).
Proof.
  apply (reachable_players (fun ps => Forall (fun kp => nicknameOk kp.2) ps)).
  - constructor.
  - intros ps ps'. apply RegistryChange_Forall.
    + apply joined_nicknameOk.
    + by intros p [? ?].
    + by intros p [? ?].
Qed.

(** X7.  In every reachable state every stored nickname has at most 20
    code units and does not begin with white space. *)
Theorem nicknames_capped_and_left_trimmed s sid p :
  reachable questions s ->
  getPlayer sid (players s) = Some p ->
  (length (nickname p) <= 20)%nat /\
  forall c n, nickname p = c :: n -> isWhiteSpace c = false.
Proof.
  intros Hall%reachable_nicknames Hp%getPlayer_Some_elem.
  rewrite Forall_forall in Hall. apply (Hall _ Hp).
Qed.

(** X18.  What the lobby lets through gives a player a name: when the Join
    button is enabled (the typed name is not blank) the server accepts the
    join and stores a non-empty nickname, the typed name trimmed and cut to
    20 units; when it is disabled nothing is sent. *)
Theorem lobbyJoin_names_the_player sid name s :
  (joinDisabled name = true -> lobbyJoin questions sid name s = Done s) /\
  (joinDisabled name = false ->
   exists s',
     lobbyJoin questions sid name s = Done s' /\
     getPlayer sid (players s') = Some (mkPlayer (slice0 20 (trim name)) 0) /\
     slice0 20 (trim name) <> []).
Proof.
  unfold lobbyJoin. split; intros Hd; rewrite Hd; [done|].
  unfold joinDisabled in Hd.
  destruct name as [|c n]; [done|].
  destruct (joinQuiz_accepted sid c n s) as (s' & Hs' & Hp & _).
  exists s'. split; [done|]. split; [done|].
  destruct (trim (c :: n)); [done|]. done.
Qed.


(** ** The index and the status *)

Lemma endQuestionAndMaybeNext_frame sm s :
  let s' := stateOf (endQuestionAndMaybeNext questions sm s) in
  currentQuestionIndex s' = currentQuestionIndex s /\
  acceptingAnswers s' = acceptingAnswers s /\
  questionTimer s' = questionTimer s /\
  roomStatus s' = roomStatus s.
Proof.
  unfold endQuestionAndMaybeNext.
  destruct (questionAt questions _); [|done]. simpl.
  repeat split. unfold roomStatus. simpl. by rewrite !fold_left_app.
Qed.

Lemma roundStopped_roomStatus s : roomStatus (roundStopped s) = roomStatus s.
Proof.
  unfold roomStatus. by destruct (roundStopped_fields s) as (_ & _ & _ & _ & _ & _ & ->).
Qed.

Lemma answerRecorded_roomStatus sid q a pl s :
  roomStatus (answerRecorded sid q a pl s) = roomStatus s.
Proof.
  unfold roomStatus.
  destruct (answerRecorded_fields sid q a pl s) as (_ & _ & _ & _ & _ & _ & _ & ->).
  by rewrite fold_left_app.
Qed.

Lemma sendQuestion_index s :
  currentQuestionIndex (stateOf (sendQuestion questions s)) = currentQuestionIndex s + 1.
Proof.
  unfold sendQuestion. simpl. destruct (_ <=? _); [done|].
  destruct (questionAt questions _); [|done]. by destruct (questionTimer s).
Qed.

Lemma sendQuestion_past_catalog s :
  Z.of_nat (length questions) <= currentQuestionIndex s + 1 ->
  roomStatus (stateOf (sendQuestion questions s)) = Finished /\
  acceptingAnswers (stateOf (sendQuestion questions s)) = false.
Proof.
  intros Hfin. rewrite sendQuestion_finishes by done. simpl. split; [|done].
  unfold roomStatus. simpl. by rewrite fold_left_app.
Qed.

(** A step leaves the index and the room's status alone, or ends in
    [sendQuestion], called with the index as it was (on -1 for a restart). *)
Lemma step_index_cases e s :
  let s' := stateOf (step questions e s) in
  (currentQuestionIndex s' = currentQuestionIndex s /\ roomStatus s' = roomStatus s) \/
  (exists x, s' = stateOf (sendQuestion questions x) /\
             (if isRestart e then currentQuestionIndex x = -1
              else currentQuestionIndex x = currentQuestionIndex s)).
Proof.
  destruct e as [sid nick| |? rs|sid qi a| | |sid|sid|h]; simpl.
  - left. unfold joinQuiz. destruct nick as [[|c n]|]; simpl; split; try done.
    all: unfold broadcastLeaderboard; by rewrite !roomStatus_emit.
  - unfold startQuiz. destruct (negb _); [by left|]. right. by eexists.
  - right. eexists. split; [done|]. cbn [isRestart currentQuestionIndex emit].
    by destruct (resetGame_fields (default true rs) s) as (_ & -> & _).
  - left.
    destruct (submitAnswer_inv sid qi a s) as [->|(q & Hacc & Hq & -> & Hnew)]; [done|].
    destruct (getPlayer sid (players s)) as [pl|] eqn:Hp.
    + rewrite (submitAnswer_accepted _ _ _ pl) by done. cbv zeta.
      destruct (answerRecorded_fields sid q a pl s) as (_ & Hi & _).
      destruct (_ && _)%bool.
      * destruct (endQuestionAndMaybeNext_frame "All players answered"
                    (roundStopped (answerRecorded sid q a pl s)))
          as (-> & _ & _ & ->).
        rewrite roundStopped_roomStatus, answerRecorded_roomStatus.
        by destruct (roundStopped_fields (answerRecorded sid q a pl s)) as (_ & -> & _).
      * simpl. by rewrite answerRecorded_roomStatus.
    + by rewrite submitAnswer_unregistered.
  - left. unfold nextQuestion. destruct (_ =? _); [done|].
    destruct (endQuestionAndMaybeNext_frame "Advanced by host" (roundStopped s))
      as (Hi & _ & _ & Hr).
    split; [etransitivity; [exact Hi|]|etransitivity; [exact Hr|]].
    + by destruct (roundStopped_fields s) as (_ & -> & _).
    + apply roundStopped_roomStatus.
  - left. split; [done|]. unfold broadcastLeaderboard. by rewrite roomStatus_emit.
  - left. split; [done|]. unfold broadcastLeaderboard. by rewrite roomStatus_emit.
  - left. unfold disconnect. set (s1 := withPlayers _ s).
    destruct (_ && _)%bool.
    + destruct (endQuestionAndMaybeNext_frame "All remaining players answered"
                  (roundStopped s1)) as (Hi & _ & _ & Hr).
      split; [etransitivity; [exact Hi|]|etransitivity; [exact Hr|]].
      * by destruct (roundStopped_fields s1) as (_ & -> & _).
      * by rewrite roundStopped_roomStatus.
    + simpl. split; [done|]. unfold broadcastLeaderboard. by rewrite roomStatus_emit.
  - unfold fire. destruct (findTimer h s) as [t|]; [|by left].
    destruct (callback t).
    + left. unfold questionTimeout.
      destruct (endQuestionAndMaybeNext_frame "Time up!"
                  (withAccepting false (clearTimeout (Some h) s))) as (-> & _ & _ & ->).
      done.
    + right. by eexists.
Qed.

Lemma step_index_bounds e s :
  let s' := stateOf (step questions e s) in
  if isRestart e then currentQuestionIndex s' = 0
  else currentQuestionIndex s <= currentQuestionIndex s' <= currentQuestionIndex s + 1.
Proof.
  destruct (step_index_cases e s) as [[Hi _]|(x & Hx & Hidx)]; cbv zeta.
  - destruct e; simpl in *; try lia.
    (* a restart always ends in sendQuestion *)
    unfold restartQuiz. rewrite sendQuestion_index.
    cbn [currentQuestionIndex emit].
    destruct (resetGame_fields (default true resetScores) s) as (_ & -> & _). done.
  - rewrite Hx, sendQuestion_index. destruct (isRestart e); lia.
Qed.

Lemma reachable_edges s :
  reachable questions s ->
  (currentQuestionIndex s = -1 -> roomStatus s = Lobby) /\
  (Z.of_nat (length questions) <= currentQuestionIndex s -> roomStatus s = Finished).
Proof.
  induction 1 as [|e s s' Hs IH Hstep]; [split; [done|simpl; lia]|].
  pose proof (index_lower _ _ (reachable_SessionInv _ Hs)) as Hl.
  destruct (step_index_cases e s) as [[Hi Hr]|(x & Hx & Hidx)];
    rewrite Hstep in *; simpl in *.
  - by rewrite Hi, Hr.
  - assert (Hx' : -1 <= currentQuestionIndex x) by (destruct (isRestart e); lia).
    rewrite Hx, sendQuestion_index. split; [lia|].
    intros Hfin. by apply sendQuestion_past_catalog.
Qed.

Lemma reachable_status s :
  reachable questions s ->
  roomStatus s = statusOfIndex questions (currentQuestionIndex s).
Proof.
  intros Hs. destruct (reachable_edges s Hs) as [Hlobby Hfin].
  destruct (reachable_SessionInv _ Hs) as [Hl _ _ Hrun].
  unfold statusOfIndex.
  destruct (Z.eqb_spec (currentQuestionIndex s) (-1)); [auto|].
  destruct (inBounds questions (currentQuestionIndex s)) eqn:Hb; [auto|].
  apply Hfin.
  destruct (Z.ltb_spec (currentQuestionIndex s) (Z.of_nat (length questions)));
    [|lia].
  exfalso. apply not_true_iff_false in Hb. apply Hb, inBounds_spec. lia.
Qed.

(** X11.  In every reachable state the status last sent to the room is the
    one that goes with the index: [lobby] on -1, [running] on a question,
    [finished] past the last one.  A joiner is told [running] exactly when
    the room's status is [running], and [lobby] otherwise, also when the
    quiz has finished. *)
Theorem status_follows_index s :
  reachable questions s ->
  roomStatus s = statusOfIndex questions (currentQuestionIndex s) /\
  statusForJoiner questions s =
    match roomStatus s with Running => Running | _ => Lobby end.
Proof.
  intros Hs. rewrite (reachable_status s Hs). split; [done|].
  unfold statusForJoiner, statusOfIndex.
  destruct (Z.eqb_spec (currentQuestionIndex s) (-1)) as [E|E].
  - rewrite E. by destruct (inBounds questions (-1)) eqn:Hb; [apply inBounds_spec in Hb; lia|].
  - by destruct (inBounds questions (currentQuestionIndex s)).
Qed.

(** X12.  The index only moves forward, one question at a time: after any
    handler or callback other than a restart it is what it was or one more;
    after a restart it is 0. *)
Theorem index_moves_forward e s :
  let s' := stateOf (step questions e s) in
  (isRestart e = false ->
   currentQuestionIndex s <= currentQuestionIndex s' <= currentQuestionIndex s + 1) /\
  (isRestart e = true -> currentQuestionIndex s' = 0).
Proof.
  pose proof (step_index_bounds e s) as H. cbv zeta in *.
  destruct (isRestart e); split; intros; done.
Qed.

(** X15.  A finished quiz stays finished until it is restarted: from a
    reachable state with the index past the catalog, whatever returns other
    than a restart leaves the index past the catalog, no answers accepted,
    the room's status [finished], and a joiner told [lobby]. *)
Theorem finished_until_restart e s s' :
  reachable questions s ->
  Z.of_nat (length questions) <= currentQuestionIndex s ->
  isRestart e = false ->
  step questions e s = Done s' ->
  Z.of_nat (length questions) <= currentQuestionIndex s' /\
  acceptingAnswers s' = false /\
  roomStatus s' = Finished /\
  statusForJoiner questions s' = Lobby.
Proof.
  intros Hs Hfin He Hstep.
  assert (Hs' : reachable questions s') by (by apply (reachable_step _ e s)).
  pose proof (step_index_bounds e s) as Hb. rewrite He, Hstep in Hb. simpl in Hb.
  assert (Hfin' : Z.of_nat (length questions) <= currentQuestionIndex s') by lia.
  split; [done|].
  destruct (reachable_SessionInv _ Hs') as [_ _ Hacc _].
  split. { destruct (acceptingAnswers s'); [specialize (Hacc eq_refl); lia|done]. }
  split; [by apply reachable_edges|].
  unfold statusForJoiner.
  destruct (inBounds questions (currentQuestionIndex s')) eqn:E; [|done].
  apply inBounds_spec in E. lia.
Qed.


(** ** Throwing *)

Lemma questionAt_None i :
  0 <= i -> questionAt questions i = None <-> Z.of_nat (length questions) <= i.
Proof.
  intros Hi. unfold questionAt.
  destruct (Z.ltb_spec i 0); [lia|].
  rewrite lookup_ge_None. lia.
Qed.

Lemma throws_endQuestionAndMaybeNext sm s :
  throws (endQuestionAndMaybeNext questions sm s) = true <->
  questionAt questions (currentQuestionIndex s) = None.
Proof.
  unfold endQuestionAndMaybeNext.
  destruct (questionAt questions _); simpl; split; done.
Qed.

Lemma sendQuestion_returns s :
  -1 <= currentQuestionIndex s -> throws (sendQuestion questions s) = false.
Proof.
  intros Hl.
  destruct (Z.leb_spec (Z.of_nat (length questions)) (currentQuestionIndex s + 1)).
  - by rewrite sendQuestion_finishes.
  - destruct (inBounds_questionAt (currentQuestionIndex s + 1)) as [q Hq].
    { apply inBounds_spec. lia. }
    by rewrite (sendQuestion_serves _ q).
Qed.

(** X8.  From a reachable state the server throws in one situation only:
    [nextQuestion], or the end of a question's time, with the index past
    the catalog.  No join, start, restart, answer, leaderboard request,
    leave, disconnect or advance after the pause ever throws (payloads
    being objects, as the client sends them). *)
Theorem throws_only_past_catalog e s :
  reachable questions s ->
  throws (step questions e s) = true <-> pastCatalogEnd questions e s.
Proof.
  intros Hs. destruct (reachable_SessionInv _ Hs) as [Hl Hidle Hacc Hrun].
  destruct e as [sid nick| |? rs|sid qi a| | |sid|sid|h]; simpl.
  - unfold joinQuiz. destruct nick as [[|c n]|]; simpl; split; done.
  - unfold startQuiz. destruct (negb _); simpl; [done|].
    rewrite sendQuestion_returns by done. done.
  - unfold restartQuiz. rewrite sendQuestion_returns; [done|].
    cbn [currentQuestionIndex emit].
    destruct (resetGame_fields (default true rs) s) as (_ & -> & _). done.
  - destruct (submitAnswer_inv sid qi a s) as [->|(q & Ha & Hq & -> & Hnew)]; [done|].
    destruct (getPlayer sid (players s)) as [pl|] eqn:Hp.
    + destruct (submitAnswer_accepted_outcome sid q a pl s Ha Hq Hnew Hp)
        as (s1 & -> & _). done.
    + by rewrite submitAnswer_unregistered.
  - unfold nextQuestion.
    destruct (Z.eqb_spec (currentQuestionIndex s) (-1)) as [E|E]; simpl.
    + split; [done|lia].
    + rewrite throws_endQuestionAndMaybeNext.
      replace (currentQuestionIndex (clearTimeout _ _)) with (currentQuestionIndex s)
        by (symmetry; exact (proj1 (proj2 (roundStopped_fields s)))).
      apply questionAt_None. lia.
  - done.
  - done.
  - unfold disconnect. set (s1 := withPlayers _ s).
    destruct (acceptingAnswers s1) eqn:Ha1; simpl; [|done].
    destruct (_ <=? _)%nat; simpl; [|done].
    split; [|done]. rewrite throws_endQuestionAndMaybeNext.
    replace (currentQuestionIndex (clearTimeout _ _)) with (currentQuestionIndex s)
      by (symmetry; exact (proj1 (proj2 (roundStopped_fields s1)))).
    intros Hnone. apply questionAt_None in Hnone.
    + specialize (Hacc Ha1). lia.
    + destruct (Z.eq_dec (currentQuestionIndex s) (-1)) as [E|E]; [|lia].
      destruct (Hidle E) as [_ Hf]. change (acceptingAnswers s = true) in Ha1. congruence.
  - unfold fire. destruct (findTimer h s) as [t|] eqn:Hf.
    2: { simpl. split; [done|]. by intros (_ & t & ? & _). }
    assert (Hpos : 0 <= currentQuestionIndex s).
    { destruct (Z.eq_dec (currentQuestionIndex s) (-1)) as [E|E]; [|lia].
      destruct (Hidle E) as [Ht _]. apply findTimer_Some_pending in Hf. done. }
    destruct (callback t) eqn:Hcb.
    + unfold questionTimeout. rewrite throws_endQuestionAndMaybeNext.
      cbn [currentQuestionIndex withAccepting clearTimeout].
      rewrite questionAt_None by done. split.
      * intros Hfin. split; [done|]. by exists t.
      * by intros [? _].
    + rewrite sendQuestion_returns by (simpl; lia). split; [done|].
      intros (_ & t' & [= <-] & Hcb'). congruence.
Qed.

(** ** Answers, the other cases *)

(** X13.  An accepted answer that is not the correct option changes no
    score: the registry is as it was, the connection is recorded as having
    answered, and the sender is told [youWereCorrect: false]. *)
Theorem wrong_answer_scores_nothing sid q a pl s :
  acceptingAnswers s = true ->
  questionAt questions (currentQuestionIndex s) = Some q ->
  sid ∉ answeredThisRound s ->
  getPlayer sid (players s) = Some pl ->
  a <> Some (answerIndex q) ->
  exists s1 rest,
    submitAnswer questions sid (Some (qid q)) a s = Done s1 /\
    players s1 = players s /\
    answeredThisRound s1 = {[sid]} ∪ answeredThisRound s /\
    emittedSince s s1 =
      ToSocket sid (AnswerSaved (qid q) (answerIndex q) false) :: rest.
Proof.
  intros Hacc Hq Hnew Hp Hwrong.
  destruct (submitAnswer_accepted_outcome sid q a pl s Hacc Hq Hnew Hp)
    as (s1 & Hs1 & Hpl & _ & Hans & _ & _ & Hout & _).
  destruct (answerRecorded_fields sid q a pl s)
    as (Hpl' & _ & _ & _ & _ & _ & _ & Hout').
  rewrite bool_decide_eq_false_2 in Hpl', Hout' by done.
  rewrite Hout', <- app_assoc in Hout.
  exists s1. eexists. split; [done|]. split; [by rewrite Hpl|]. split; [done|].
  by apply emittedSince_outbox.
Qed.

(** X14.  [submitAnswer] returns in the state it was called in, nothing
    emitted, exactly when answers are closed, or there is no question at the
    index, or the payload's [questionId] is not the current question's id,
    or the connection has already answered this round. *)
Theorem submit_ignored_iff sid qi a s :
  submitAnswer questions sid qi a s = Done s <->
  acceptingAnswers s = false \/
  (match questionAt questions (currentQuestionIndex s) with
   | None => True
   | Some q => qi <> Some (qid q)
   end) \/
  sid ∈ answeredThisRound s.
Proof.
  split.
  - intros Hsame.
    destruct (acceptingAnswers s) eqn:Hacc; [|by left].
    destruct (questionAt questions (currentQuestionIndex s)) as [q|] eqn:Hq;
      [|right; by left].
    destruct (decide (qi = Some (qid q))) as [->|Hne]; [|right; by left].
    destruct (decide (sid ∈ answeredThisRound s)) as [Hin|Hnew]; [right; by right|].
    exfalso. apply Hnew.
    assert (Hin : sid ∈ answeredThisRound (stateOf (submitAnswer questions sid
                                            (Some (qid q)) a s))).
    { destruct (getPlayer sid (players s)) as [pl|] eqn:Hp.
      - destruct (submitAnswer_accepted_outcome sid q a pl s Hacc Hq Hnew Hp)
          as (s1 & Hs1 & Hpl & Hidx & Hans & Hrest).
        rewrite Hs1. cbn [stateOf]. rewrite Hans.
        apply elem_of_union. left. by apply elem_of_singleton.
      - rewrite submitAnswer_unregistered by done. simpl.
        apply elem_of_union. left. by apply elem_of_singleton. }
    by rewrite Hsame in Hin.
  - intros [Hclosed|[Hq|Hin]].
    + by apply submitAnswer_closed.
    + unfold submitAnswer. destruct (acceptingAnswers s); simpl; [|done].
      destruct (questionAt questions _) as [q|]; [|done].
      by rewrite bool_decide_eq_false_2.
    + by apply submitAnswer_already.
Qed.

(** ** Leaving *)

(** X19.  [leaveQuiz] and [disconnect] both take the connection's entry out
    of the registry and leave every other player as it was; the two end with
    the same registry. *)
Theorem leave_and_disconnect_remove sid s :
  let left := stateOf (leaveQuiz sid s) in
  let gone := stateOf (disconnect questions sid s) in
  getPlayer sid (players left) = None /\
  getPlayer sid (players gone) = None /\
  players gone = players left /\
  forall sid', sid' <> sid ->
    getPlayer sid' (players left) = getPlayer sid' (players s).
Proof.
  intros left gone.
  assert (Hgone : players gone = deletePlayer sid (players s)).
  { unfold gone, disconnect. set (s1 := withPlayers _ s).
    destruct (_ && _)%bool; [|done].
    rewrite endQuestionAndMaybeNext_players. exact (roundStopped_players s1). }
  rewrite Hgone. simpl.
  split; [apply getPlayer_deletePlayer_eq|].
  split; [apply getPlayer_deletePlayer_eq|].
  split; [done|].
  intros sid' Hne. by apply getPlayer_deletePlayer_ne.
Qed.


(** ** The queue of timeouts *)

Lemma TimersChange_clearTimeout h s :
  TimersChange (timers s, nextTimerId s)
    (timers (clearTimeout h s), nextTimerId (clearTimeout h s)).
Proof. destruct h; simpl; constructor. Qed.

Lemma TimersChange_roundStopped s :
  TimersChange (timers s, nextTimerId s)
    (timers (roundStopped s), nextTimerId (roundStopped s)).
Proof. exact (TimersChange_clearTimeout (questionTimer s) (withAccepting false s)). Qed.

Lemma TimersChange_endQuestionAndMaybeNext sm s :
  TimersChange (timers s, nextTimerId s)
    (timers (stateOf (endQuestionAndMaybeNext questions sm s)),
     nextTimerId (stateOf (endQuestionAndMaybeNext questions sm s))).
Proof.
  unfold endQuestionAndMaybeNext.
  destruct (questionAt questions _); simpl; constructor.
Qed.

Lemma TimersChange_sendQuestion s :
  TimersChange (timers s, nextTimerId s)
    (timers (stateOf (sendQuestion questions s)),
     nextTimerId (stateOf (sendQuestion questions s))).
Proof.
  unfold sendQuestion. simpl. destruct (_ <=? _); [constructor|].
  destruct (questionAt questions _); [|constructor].
  destruct (questionTimer s); simpl; [|constructor].
  eapply timers_then; constructor.
Qed.

Lemma TimersChange_resetGame b s :
  TimersChange (timers s, nextTimerId s)
    (timers (resetGame b s), nextTimerId (resetGame b s)).
Proof.
  destruct (resetGame_fields b s) as (_ & _ & _ & _ & _ & -> & -> & _).
  destruct (questionTimer s); simpl; constructor.
Qed.

(** Every handler and callback changes the queue in these ways only. *)
Lemma step_timers e s :
  TimersChange (timers s, nextTimerId s)
    (timers (stateOf (step questions e s)), nextTimerId (stateOf (step questions e s))).
Proof.
  destruct e as [sid nick| |? rs|sid qi a| | |sid|sid|h]; simpl.
  - unfold joinQuiz. destruct nick as [[|c n]|]; simpl; constructor.
  - unfold startQuiz. destruct (negb _); [constructor|].
    exact (TimersChange_sendQuestion (emit (ToRoom (QuizState Running)) s)).
  - unfold restartQuiz. eapply timers_then; [apply (TimersChange_resetGame (default true rs))|].
    exact (TimersChange_sendQuestion
             (emit (ToRoom (QuizState Running)) (resetGame (default true rs) s))).
  - destruct (submitAnswer_inv sid qi a s) as [->|(q & Hacc & Hq & -> & Hnew)];
      [constructor|].
    destruct (getPlayer sid (players s)) as [pl|] eqn:Hp.
    + rewrite (submitAnswer_accepted _ _ _ pl) by done. cbv zeta.
      destruct (answerRecorded_fields sid q a pl s)
        as (_ & _ & _ & _ & _ & Htm & Hnx & _).
      rewrite <- Htm, <- Hnx.
      destruct (_ && _)%bool; [|constructor].
      eapply timers_then; [apply TimersChange_roundStopped|].
      apply TimersChange_endQuestionAndMaybeNext.
    + rewrite submitAnswer_unregistered by done. constructor.
  - unfold nextQuestion. destruct (_ =? _); [constructor|].
    eapply timers_then; [apply TimersChange_roundStopped|].
    exact (TimersChange_endQuestionAndMaybeNext _ (roundStopped s)).
  - constructor.
  - constructor.
  - unfold disconnect. set (s1 := withPlayers _ s).
    destruct (_ && _)%bool; [|constructor].
    eapply timers_then; [apply (TimersChange_roundStopped s1)|].
    exact (TimersChange_endQuestionAndMaybeNext _ (roundStopped s1)).
  - unfold fire. destruct (findTimer h s) as [t|]; [|constructor].
    eapply timers_then; [apply (TimersChange_clearTimeout (Some h))|].
    destruct (callback t).
    + exact (TimersChange_endQuestionAndMaybeNext _
               (withAccepting false (clearTimeout (Some h) s))).
    + apply TimersChange_sendQuestion.
Qed.

Lemma TimersChange_distinct x y :
  TimersChange x y -> TimersDistinct x -> TimersDistinct y.
Proof.
  unfold TimersDistinct. induction 1 as [x|ts n h|ts n cb ms|x y z _ IH1 _ IH2]; simpl.
  - done.
  - intros [Hlt Hnd]. split.
    + rewrite Forall_forall in *. intros t [_ Ht]%list_elem_of_filter. auto.
    + apply (NoDup_fmap_2_strong handle).
      * intros t1 t2 [_ H1]%list_elem_of_filter [_ H2]%list_elem_of_filter Heq.
        clear -Hnd H1 H2 Heq. induction ts as [|t ts IH]; [by apply elem_of_nil in H1|].
        rewrite fmap_cons in Hnd. apply NoDup_cons in Hnd as [Hnin Hnd].
        apply elem_of_cons in H1 as [->|H1], H2 as [->|H2]; try done.
        -- exfalso. apply Hnin. rewrite Heq. by apply list_elem_of_fmap_2.
        -- exfalso. apply Hnin. rewrite <- Heq. by apply list_elem_of_fmap_2.
        -- auto.
      * apply NoDup_filter. by apply NoDup_fmap_1 in Hnd.
  - intros [Hlt Hnd]. split.
    + apply Forall_app. split; [|repeat constructor].
      eapply Forall_impl; [exact Hlt|]. simpl. lia.
    + rewrite fmap_app. apply NoDup_app. split; [done|]. split; [|apply NoDup_singleton].
      intros k Hk ->%list_elem_of_singleton.
      apply list_elem_of_fmap in Hk as (t & Hh & Ht).
      rewrite Forall_forall in Hlt. specialize (Hlt t Ht). simpl in Hh. lia.
  - auto.
Qed.

Lemma reachable_TimersDistinct s :
  reachable questions s -> TimersDistinct (timers s, nextTimerId s).
Proof.
  induction 1 as [|e s s' _ IH Hstep].
  - split; simpl; constructor.
  - pose proof (step_timers e s) as Hch. rewrite Hstep in Hch.
    by apply (TimersChange_distinct _ _ Hch).
Qed.

Lemma same_handle_same_timer (ts : list Timer) t1 t2 :
  NoDup (handle <$> ts) -> t1 ∈ ts -> t2 ∈ ts -> handle t1 = handle t2 -> t1 = t2.
Proof.
  induction ts as [|t ts IH]; [by intros _ ?%elem_of_nil|].
  rewrite fmap_cons. intros [Hnin Hnd]%NoDup_cons.
  intros [->|H1]%elem_of_cons [->|H2]%elem_of_cons Heq; try done.
  - exfalso. apply Hnin. rewrite Heq. by apply list_elem_of_fmap_2.
  - exfalso. apply Hnin. rewrite <- Heq. by apply list_elem_of_fmap_2.
  - auto.
Qed.

Lemma TimersChange_grows x y :
  TimersChange x y ->
  (x.2 <= y.2)%nat /\
  forall t, t ∈ y.1 -> t ∈ x.1 \/ (x.2 <= handle t)%nat.
Proof.
  induction 1 as [x|ts n h|ts n cb ms|x y z _ [IH1 IH1'] _ [IH2 IH2']]; simpl.
  - split; [lia|]. auto.
  - split; [lia|]. intros t [_ Ht]%list_elem_of_filter. auto.
  - split; [lia|]. intros t [Ht| ->%list_elem_of_singleton]%elem_of_app; [auto|].
    right. simpl. lia.
  - split; [lia|]. intros t Ht.
    destruct (IH2' t Ht) as [Hy|Hge]; [|right; lia].
    destruct (IH1' t Hy) as [Hx|Hge]; auto.
Qed.

Lemma run_timers es s s' :
  run questions es s = Done s' ->
  TimersChange (timers s, nextTimerId s) (timers s', nextTimerId s').
Proof.
  revert s. induction es as [|e es IH]; simpl; intros s.
  - intros [= <-]. constructor.
  - pose proof (step_timers e s) as Hch.
    destruct (step questions e s) as [s1|s1]; [|discriminate].
    intros Hrun. eapply timers_then; [exact Hch|]. by apply IH.
Qed.

(** C3, as the server has it.  From any reachable state, a step that
    restarts the quiz, serves a question or ends a round leaves no question
    timeout pending that was pending before it: the timeout held in
    [questionTimer] is cleared within the same handler or callback, which
    runs to completion.  Nor is it ever pending again: whatever events the
    server handles afterwards, running its handle does nothing.
    Not covered, because the server clears nothing there: the timeout of
    the pause after a round, which is held nowhere, and the step in which
    [sendQuestion] finishes the quiz. *)
Theorem superseding_step_cancels_question_timeout e s s' :
  reachable questions s ->
  step questions e s = Done s' ->
  supersedesRound e s s' ->
  cancelsQuestionTimeout s s' /\
  forall es s'',
    run questions es s' = Done s'' ->
    forall t, t ∈ timers s -> callback t = QuestionTimeout ->
      (handle t ∉ pendingHandles s'') /\
      fire questions (handle t) s'' = Done s''.
Proof.
  intros Hok%reachable_TimersOk Hstep Hsup.
  assert (Hc : cancelsQuestionTimeout s s').
  { destruct (step_cleared_or_quiet e s s' Hok Hstep) as [Hca|(Hr & Hq & He)].
    - by apply clearedAndArmed_cancels.
    - destruct Hsup as [Hsup|[Hsup|Hsup]]; congruence. }
  split; [done|]. intros es s'' Hrun t Ht Hcb.
  assert (Hnin : handle t ∉ pendingHandles s'').
  { pose proof (step_timers e s) as Hch. rewrite Hstep in Hch.
    apply TimersChange_grows in Hch as [Hn1 _].
    apply run_timers, TimersChange_grows in Hrun as [_ Hfrom].
    simpl in *. intros Hin.
    apply list_elem_of_fmap in Hin as (t'' & Hh & Ht'').
    destruct (Hfrom t'' Ht'') as [Hs'|Hfresh].
    - apply (Hc t Ht Hcb). rewrite Hh. by apply list_elem_of_fmap_2.
    - destruct Hok as [Hbelow _ _]. rewrite Forall_forall in Hbelow.
      specialize (Hbelow t Ht). lia. }
  split; [done|]. unfold fire. by rewrite (findTimer_not_pending _ _ Hnin).
Qed.

(** X9.  In every reachable state the pending timeouts have handles of
    their own, and at most one of them is a question's timeout: the one
    whose handle [questionTimer] holds. *)
Theorem one_question_timeout_at_most s :
  reachable questions s ->
  NoDup (pendingHandles s) /\
  forall t1 t2,
    t1 ∈ timers s -> t2 ∈ timers s ->
    callback t1 = QuestionTimeout -> callback t2 = QuestionTimeout ->
    t1 = t2 /\ questionTimer s = Some (handle t1).
Proof.
  intros Hs. destruct (reachable_TimersDistinct s Hs) as [_ Hnd].
  destruct (reachable_TimersOk s Hs) as [_ _ Hheld]. simpl in Hnd.
  split; [done|]. intros t1 t2 H1 H2 Hc1 Hc2.
  rewrite Forall_forall in Hheld.
  pose proof (Hheld t1 H1 Hc1) as E1. pose proof (Hheld t2 H2 Hc2) as E2.
  split; [|done]. apply (same_handle_same_timer (timers s)); try done. congruence.
Qed.


(** ** An open round and its timeout *)

Lemma OpenRound_frame s s' :
  OpenRound s ->
  (acceptingAnswers s' = true -> acceptingAnswers s = true) ->
  questionTimer s' = questionTimer s ->
  timers s' = timers s ->
  OpenRound s'.
Proof. unfold OpenRound. intros Ho Ha -> ->. auto. Qed.

Lemma OpenRound_closed s : acceptingAnswers s = false -> OpenRound s.
Proof. unfold OpenRound. congruence. Qed.

Lemma OpenRound_sendQuestion s s' :
  sendQuestion questions s = Done s' -> OpenRound s'.
Proof.
  intros Hdone.
  destruct (Z.leb_spec (Z.of_nat (length questions)) (currentQuestionIndex s + 1)).
  - rewrite sendQuestion_finishes in Hdone by done. injection Hdone as <-.
    by apply OpenRound_closed.
  - destruct (questionAt questions (currentQuestionIndex s + 1)) as [q|] eqn:Hq.
    + rewrite (sendQuestion_serves _ q) in Hdone by done. injection Hdone as <-.
      intros _. eexists. split; [done|]. simpl.
      apply elem_of_app. right. apply list_elem_of_singleton. done.
    + exfalso. unfold sendQuestion in Hdone. simpl in Hdone.
      destruct (Z.leb_spec (Z.of_nat (length questions)) (currentQuestionIndex s + 1));
        [lia|].
      by rewrite Hq in Hdone.
Qed.

Lemma OpenRound_ended sm s s' :
  endQuestionAndMaybeNext questions sm s = Done s' ->
  acceptingAnswers s = false -> OpenRound s'.
Proof.
  intros Hdone Hacc. apply OpenRound_closed.
  destruct (endQuestionAndMaybeNext_frame sm s) as (_ & Ha & _).
  rewrite Hdone in Ha. simpl in Ha. congruence.
Qed.

Lemma OpenRound_step e s s' :
  step questions e s = Done s' -> OpenRound s -> OpenRound s'.
Proof.
  intros Hstep Ho.
  destruct e as [sid nick| |? rs|sid qi a| | |sid|sid|h]; simpl in Hstep.
  - unfold joinQuiz in Hstep.
    destruct nick as [[|c n]|]; injection Hstep as <-; by apply (OpenRound_frame s).
  - unfold startQuiz in Hstep. destruct (negb _).
    + by injection Hstep as <-.
    + by apply OpenRound_sendQuestion in Hstep.
  - by apply OpenRound_sendQuestion in Hstep.
  - destruct (submitAnswer_inv sid qi a s) as [Hsame|(q & Hacc & Hq & -> & Hnew)].
    { rewrite Hsame in Hstep. by injection Hstep as <-. }
    destruct (getPlayer sid (players s)) as [pl|] eqn:Hp.
    + rewrite (submitAnswer_accepted _ _ _ pl) in Hstep by done. cbv zeta in Hstep.
      destruct (answerRecorded_fields sid q a pl s)
        as (_ & _ & Ha & Hqt & _ & Htm & _ & _).
      destruct (_ && _)%bool.
      * apply OpenRound_ended in Hstep; [done|].
        by destruct (roundStopped_fields (answerRecorded sid q a pl s)) as (_ & _ & -> & _).
      * injection Hstep as <-. apply (OpenRound_frame s); [done| |done..].
        by rewrite Ha.
    + rewrite submitAnswer_unregistered in Hstep by done.
      injection Hstep as <-. by apply (OpenRound_frame s).
  - unfold nextQuestion in Hstep. destruct (_ =? _).
    + by injection Hstep as <-.
    + apply (OpenRound_ended _ (roundStopped s)) in Hstep; [done|].
      by destruct (roundStopped_fields s) as (_ & _ & -> & _).
  - injection Hstep as <-. by apply (OpenRound_frame s).
  - injection Hstep as <-. by apply (OpenRound_frame s).
  - unfold disconnect in Hstep. set (s1 := withPlayers _ s) in *.
    destruct (_ && _)%bool.
    + apply (OpenRound_ended _ (roundStopped s1)) in Hstep; [done|].
      by destruct (roundStopped_fields s1) as (_ & _ & -> & _).
    + injection Hstep as <-. by apply (OpenRound_frame s).
  - unfold fire in Hstep. destruct (findTimer h s) as [t|].
    2: { by injection Hstep as <-. }
    destruct (callback t).
    + unfold questionTimeout in Hstep. by apply OpenRound_ended in Hstep.
    + by apply OpenRound_sendQuestion in Hstep.
Qed.

Lemma reachable_OpenRound s : reachable questions s -> OpenRound s.
Proof.
  induction 1 as [|e s s' _ IH Hstep].
  - by apply OpenRound_closed.
  - by apply (OpenRound_step e s).
Qed.

(** X10.  In every reachable state in which answers are accepted, the
    timeout of the question is pending, for [QUESTION_DURATION_MS], under
    the handle [questionTimer] holds: an open round always has its end
    scheduled. *)
Theorem open_round_has_its_timeout s :
  reachable questions s ->
  acceptingAnswers s = true ->
  exists h, questionTimer s = Some h /\
            mkTimer h QuestionTimeout QUESTION_DURATION_MS ∈ timers s.
Proof. intros Hs. by apply reachable_OpenRound. Qed.

Lemma findTimer_pending h s t :
  t ∈ timers s -> handle t = h -> NoDup (pendingHandles s) -> findTimer h s = Some t.
Proof.
  intros Ht Hh Hnd. unfold findTimer.
  destruct (filter (fun t0 => handle t0 = h) (timers s)) as [|t' l] eqn:Hf.
  - assert (t ∈ filter (fun t0 => handle t0 = h) (timers s))
      by (by apply list_elem_of_filter).
    rewrite Hf in H. by apply elem_of_nil in H.
  - simpl. f_equal.
    assert (Ht' : t' ∈ filter (fun t0 => handle t0 = h) (timers s))
      by (rewrite Hf; apply list_elem_of_here).
    apply list_elem_of_filter in Ht' as [Hh' Ht'].
    apply (same_handle_same_timer (timers s)); try done. congruence.
Qed.

(** X16.  When the time of an open question is up (the timeout held in
    [questionTimer] runs, from a reachable state in which answers are
    accepted), the round ends with "Time up!": answers are closed, the
    room gets the result and the leaderboard, no score and no index
    changes, and the advance is scheduled in 1500 ms in place of the
    timeout that ran. *)
Theorem time_up_ends_round s h :
  reachable questions s ->
  acceptingAnswers s = true ->
  questionTimer s = Some h ->
  exists q s',
    questionAt questions (currentQuestionIndex s) = Some q /\
    fire questions h s = Done s' /\
    acceptingAnswers s' = false /\
    players s' = players s /\
    currentQuestionIndex s' = currentQuestionIndex s /\
    emittedSince s s' =
      [ToRoom (AnswerResult (qid q) (answerIndex q) "Time up!");
       ToRoom (LeaderboardMsg (leaderboardOf (players s)))] /\
    timers s' =
      filter (fun t => handle t <> h) (timers s)
        ++ [mkTimer (nextTimerId s) AdvancePause 1500].
Proof.
  intros Hs Hacc Hheld.
  destruct (reachable_OpenRound s Hs Hacc) as (h' & Hh' & Hin).
  assert (h' = h) as -> by congruence.
  destruct (reachable_TimersDistinct s Hs) as [_ Hnd]. simpl in Hnd.
  pose proof (SessionInv_AcceptingOnlyRunning s (reachable_SessionInv _ Hs) Hacc)
    as (_ & _ & Hb).
  destruct (inBounds_questionAt (currentQuestionIndex s)) as [q Hq];
    [by apply inBounds_spec|].
  unfold fire. rewrite (findTimer_pending h s _ Hin eq_refl Hnd). simpl.
  unfold questionTimeout.
  rewrite (endQuestionAndMaybeNext_ends _ _ q) by done.
  exists q. eexists. split; [done|]. split; [done|]. simpl.
  repeat split. by apply emittedSince_outbox.
Qed.

(** X17.  The advance after the pause, past the last question, finishes the
    quiz and arms nothing: the index goes one up, the room is told
    [finished] and gets the final leaderboard, answers stay closed, and the
    queue is what it was less the timeout that ran.  With a question at the
    next index, that question is served instead: answers are accepted, the
    record of the round is empty, and the question's timeout is armed for
    [QUESTION_DURATION_MS]. *)
Theorem advance_serves_or_finishes s h t :
  findTimer h s = Some t ->
  callback t = AdvancePause ->
  (Z.of_nat (length questions) <= currentQuestionIndex s + 1 ->
   exists s',
     fire questions h s = Done s' /\
     currentQuestionIndex s' = currentQuestionIndex s + 1 /\
     acceptingAnswers s' = false /\
     roomStatus s' = Finished /\
     emittedSince s s' =
       [ToRoom (QuizState Finished);
        ToRoom (LeaderboardMsg (leaderboardOf (players s)))] /\
     timers s' = filter (fun t => handle t <> h) (timers s)) /\
  (forall q, questionAt questions (currentQuestionIndex s + 1) = Some q ->
   exists s',
     fire questions h s = Done s' /\
     currentQuestionIndex s' = currentQuestionIndex s + 1 /\
     acceptingAnswers s' = true /\
     answeredThisRound s' = ∅ /\
     emittedSince s s' =
       [ToRoom (QuestionMsg (qid q) (text q) (options q)
                  (currentQuestionIndex s + 1)
                  (Z.of_nat (length questions)) QUESTION_DURATION_MS)] /\
     questionTimer s' = Some (nextTimerId s) /\
     mkTimer (nextTimerId s) QuestionTimeout QUESTION_DURATION_MS ∈ timers s').
Proof.
  intros Hf Hcb. unfold fire. rewrite Hf, Hcb. split.
  - intros Hfin. rewrite sendQuestion_finishes by done.
    eexists. split; [done|]. simpl. repeat split.
    + unfold roomStatus. simpl. by rewrite fold_left_app.
    + by apply emittedSince_outbox.
  - intros q Hq. rewrite (sendQuestion_serves _ q) by done.
    eexists. split; [done|]. simpl. repeat split.
    + by apply emittedSince_outbox.
    + apply elem_of_app. right. by apply list_elem_of_singleton.
Qed.


(** ** Skipping twice *)

(** X20.  The host's skip ends the round every time it is sent while the
    index is on a question, also when the round has already ended: from a
    reachable state two skips in a row broadcast the result of the same
    question twice and leave two advances pending, under two handles, with
    the index where it was.  (Each advance, when it runs, moves the index
    by one.) *)
Theorem skipping_twice_schedules_two_advances s q a b :
  reachable questions s ->
  questionAt questions (currentQuestionIndex s) = Some q ->
  exists s2,
    run questions [NextQuestion a; NextQuestion b] s = Done s2 /\
    currentQuestionIndex s2 = currentQuestionIndex s /\
    acceptingAnswers s2 = false /\
    emittedSince s s2 =
      [ToRoom (AnswerResult (qid q) (answerIndex q) "Advanced by host");
       ToRoom (LeaderboardMsg (leaderboardOf (players s)));
       ToRoom (AnswerResult (qid q) (answerIndex q) "Advanced by host");
       ToRoom (LeaderboardMsg (leaderboardOf (players s)))] /\
    mkTimer (nextTimerId s) AdvancePause 1500 ∈ timers s2 /\
    mkTimer (S (nextTimerId s)) AdvancePause 1500 ∈ timers s2.
Proof.
  intros Hok%reachable_TimersOk Hq.
  pose proof (questionAt_Some_inBounds _ _ Hq) as Hb%inBounds_spec.
  destruct (roundStopped_fields s) as (Rpl & Ridx & Rac & Rqt & Rans & Rnx & Rout).
  assert (Hne : (currentQuestionIndex s =? -1) = false) by (apply Z.eqb_neq; lia).
  simpl. unfold nextQuestion at 1. rewrite Hne.
  change (clearTimeout (questionTimer (withAccepting false s)) (withAccepting false s))
    with (roundStopped s).
  rewrite (endQuestionAndMaybeNext_ends _ _ q) by (by rewrite Ridx).
  rewrite Rpl, Ridx, Rac, Rqt, Rans, Rnx, Rout.
  set (s1 := mkServer _ _ _ _ _ _ _ _).
  destruct (roundStopped_fields s1) as (Spl & Sidx & Sac & Sqt & Sans & Snx & Sout).
  unfold nextQuestion. replace (currentQuestionIndex s1 =? -1) with false by done.
  change (clearTimeout (questionTimer (withAccepting false s1)) (withAccepting false s1))
    with (roundStopped s1).
  rewrite (endQuestionAndMaybeNext_ends _ _ q) by (by rewrite Sidx).
  eexists. split; [done|]. cbn [currentQuestionIndex acceptingAnswers timers outbox].
  rewrite Sidx, Sac, Spl, Snx, Sout. subst s1. cbn [currentQuestionIndex players nextTimerId outbox].
  split; [done|]. split; [done|].
  split. { apply emittedSince_outbox. by rewrite <- app_assoc. }
  split.
  - apply elem_of_app. left. unfold roundStopped. cbn [questionTimer withAccepting].
    destruct (questionTimer s) as [h|] eqn:Hh; simpl.
    + apply list_elem_of_filter. split.
      * simpl. destruct Hok as [_ Hheld _]. specialize (Hheld h Hh). lia.
      * apply elem_of_app. right. by apply list_elem_of_singleton.
    + apply elem_of_app. right. by apply list_elem_of_singleton.
  - apply elem_of_app. right. by apply list_elem_of_singleton.
Qed.

(** ** A served question and its answers *)

(** X22.  The id the room is sent with a question is the id the server
    expects back: right after [sendQuestion] has served a question, an
    answer carrying that id, from whatever connection, is not ignored; the
    connection is recorded as having answered. *)
Theorem served_question_accepts_its_answers s s' id qtext opts index total dur :
  sendQuestion questions s = Done s' ->
  ToRoom (QuestionMsg id qtext opts index total dur) ∈ emittedSince s s' ->
  forall sid a,
    (sid ∉ answeredThisRound s') /\
    (sid ∈ answeredThisRound (stateOf (submitAnswer questions sid (Some id) a s'))).
Proof.
  intros Hdone Hin sid a.
  destruct (Z.leb_spec (Z.of_nat (length questions)) (currentQuestionIndex s + 1)).
  { rewrite sendQuestion_finishes in Hdone by done. injection Hdone as <-.
    unfold emittedSince in Hin. cbn [outbox] in Hin. rewrite drop_app_length in Hin.
    apply elem_of_cons in Hin as [?|Hin]; [done|].
    apply list_elem_of_singleton in Hin. done. }
  destruct (questionAt questions (currentQuestionIndex s + 1)) as [q|] eqn:Hq.
  2: { exfalso. unfold sendQuestion in Hdone. simpl in Hdone.
       destruct (Z.leb_spec (Z.of_nat (length questions)) (currentQuestionIndex s + 1));
         [lia|].
       by rewrite Hq in Hdone. }
  rewrite (sendQuestion_serves _ q) in Hdone by done. injection Hdone as <-.
  unfold emittedSince in Hin. cbn [outbox] in Hin. rewrite drop_app_length in Hin.
  apply list_elem_of_singleton in Hin. injection Hin as -> _ _ _ _ _.
  split; [apply not_elem_of_empty|].
  set (s' := mkServer _ _ _ _ _ _ _ _).
  assert (Hnew : sid ∉ answeredThisRound s') by apply not_elem_of_empty.
  destruct (getPlayer sid (players s')) as [pl|] eqn:Hp.
  - destruct (submitAnswer_accepted_outcome sid q a pl s' eq_refl Hq Hnew Hp)
      as (s1 & Hs1 & Hpl & Hidx & Hans & Hrest).
    rewrite Hs1. cbn [stateOf]. rewrite Hans.
    apply elem_of_union. left. by apply elem_of_singleton.
  - rewrite (submitAnswer_unregistered sid q a s' eq_refl Hq Hnew Hp).
    cbn [stateOf answeredThisRound withAnswered].
    apply elem_of_union. left. by apply elem_of_singleton.
Qed.

(** ** Resetting *)

Lemma zeroScores_twice (ps : Players) : zeroScores (zeroScores ps) = zeroScores ps.
Proof.
  unfold zeroScores. rewrite map_map. apply map_ext. by intros [k p].
Qed.

(** X23.  Two resets in a row are one reset that zeroes the scores if
    either does; in particular [resetGame] twice is [resetGame] once. *)
Theorem resetGame_twice b1 b2 s :
  resetGame b2 (resetGame b1 s) = resetGame (b1 || b2) s.
Proof.
  destruct s as [ps i acc qt ans ts n out].
  destruct b1, b2, qt;
    cbv [resetGame resetRoundTracking withQuestionTimer withAccepting withIndex
         withPlayers withAnswered clearTimeout orb
         players currentQuestionIndex acceptingAnswers questionTimer
         answeredThisRound timers nextTimerId outbox];
    rewrite ?zeroScores_twice; reflexivity.
Qed.

(** ** Origins *)

(** X21.  A request without an Origin header (or with an empty one) is
    always allowed.  In production a request with an origin is allowed
    exactly when [CLIENT_ORIGIN] is set to that origin, so with
    [CLIENT_ORIGIN] unset or empty every browser origin is refused, the
    development ones included; outside production exactly the two
    development origins are allowed. *)
Theorem cors_allows_exactly production clientOrigin c o :
  corsAllows production clientOrigin None = true /\
  corsAllows production clientOrigin (Some EmptyString) = true /\
  (corsAllows true clientOrigin (Some (String c o)) = true <->
   clientOrigin = Some (String c o)) /\
  (corsAllows false clientOrigin (Some (String c o)) = true <->
   String c o ∈ DEV_ORIGINS).
Proof.
  split; [done|]. split; [done|]. unfold corsAllows. simpl. split.
  - rewrite bool_decide_eq_true.
    destruct clientOrigin as [[|c' o']|]; simpl.
    + split; [by intros ?%elem_of_nil|done].
    + rewrite list_elem_of_singleton. split; congruence.
    + split; [by intros ?%elem_of_nil|done].
  - by rewrite bool_decide_eq_true.
Qed.

End Properties.

(** * The server's own catalog *)

Lemma sessionAfter_reachable es :
  run sampleQuestions es initial = Done (sessionAfter es) ->
  reachable sampleQuestions (sessionAfter es).
Proof. apply run_reachable, reachable_initial. Qed.

Lemma firstQuestionOpen_reachable :
  reachable sampleQuestions (sessionAfter firstQuestionOpen).
Proof. apply sessionAfter_reachable. vm_compute. reflexivity. Qed.

Lemma firstQuestionSkipped_reachable :
  reachable sampleQuestions (sessionAfter firstQuestionSkipped).
Proof. apply sessionAfter_reachable. vm_compute. reflexivity. Qed.

(** With two players and the first question open, answers are accepted and
    the session is running. *)
Lemma accepting_only_while_running_witness :
  acceptingAnswers (sessionAfter firstQuestionOpen) = true /\
  AcceptingOnlyRunning sampleQuestions (sessionAfter firstQuestionOpen) /\
  forall e, AcceptingOnlyRunning sampleQuestions
              (stateOf (step sampleQuestions e (sessionAfter firstQuestionOpen))).
Proof.
  split; [reflexivity|].
  apply (accepting_only_while_running sampleQuestions).
  apply firstQuestionOpen_reachable.
Defined.

(** A second [startQuiz] while the first question is open does nothing; the
    first one, from the lobby, serves the first question. *)
Lemma startQuiz_only_once_witness :
  startQuiz sampleQuestions (sessionAfter firstQuestionOpen)
    = Done (sessionAfter firstQuestionOpen) /\
  startQuiz sampleQuestions (sessionAfter twoInLobby)
    = Done (sessionAfter firstQuestionOpen).
Proof.
  split.
  - apply (proj1 (startQuiz_only_once sampleQuestions (sessionAfter firstQuestionOpen))).
    vm_compute. discriminate.
  - destruct (proj2 (startQuiz_only_once sampleQuestions (sessionAfter twoInLobby)))
      as (Heq & _); [reflexivity|].
    rewrite Heq. vm_compute. reflexivity.
Defined.

(** Ada, after scoring 10 on the first question, joins again as "Bob". *)
Lemma rejoin_resets_score_witness :
  getPlayer "s1" (players (sessionAfter adaScored)) = Some (mkPlayer ada 10) /\
  exists s',
    joinQuiz sampleQuestions "s1" (Some bob) (sessionAfter adaScored) = Done s' /\
    getPlayer "s1" (players s') = Some (mkPlayer bob 0).
Proof.
  split; [reflexivity|].
  destruct (rejoin_resets_score sampleQuestions "s1" 66%N [111; 98]%N
              (mkPlayer ada 10) (sessionAfter adaScored))
    as (s' & Hs' & Hp & _); [reflexivity|].
  exists s'. split; [exact Hs'|]. rewrite Hp. vm_compute. reflexivity.
Defined.

Lemma not_answered_yet (sid : string) (s : Server) :
  bool_decide (sid ∈ answeredThisRound s) = false -> sid ∉ answeredThisRound s.
Proof. by intros H%bool_decide_eq_false. Qed.


(** Bob's answer, after Ada has answered and left, ends the round; Ada's
    answer with Bob still to answer does not, and neither does an answer
    when nobody has joined. *)
Lemma submit_ends_round_when_all_answered_witness :
  endsRoundWith "All players answered" (sessionAfter answeredAndLeft)
    (submitAnswer sampleQuestions "s2" (Some 1) (Some 0)
       (sessionAfter answeredAndLeft)) = true /\
  endsRoundWith "All players answered" (sessionAfter firstQuestionOpen)
    (submitAnswer sampleQuestions "s1" (Some 1) (Some 1)
       (sessionAfter firstQuestionOpen)) = false /\
  endsRoundWith "All players answered" (sessionAfter nobodyJoined)
    (submitAnswer sampleQuestions "s9" (Some 1) (Some 1)
       (sessionAfter nobodyJoined)) = false.
Proof.
  split; [|split].
  - apply (proj1 (submit_ends_round_when_all_answered sampleQuestions "s2"
                    (Some 1) (Some 0) (sessionAfter answeredAndLeft))).
    split; [reflexivity|].
    split; [exists firstSample; split; reflexivity|].
    split; [apply not_answered_yet; vm_compute; reflexivity|].
    split; [by eexists|].
    vm_compute. split; lia.
  - apply (proj2 (proj2 (proj2
             (submit_ends_round_when_all_answered sampleQuestions "s1"
                (Some 1) (Some 1) (sessionAfter firstQuestionOpen))))).
    left. vm_compute. lia.
  - apply (proj2 (proj2 (proj2
             (submit_ends_round_when_all_answered sampleQuestions "s9"
                (Some 1) (Some 1) (sessionAfter nobodyJoined))))).
    right. vm_compute. reflexivity.
Defined.

(** A stranger's answer is recorded, and Ada's answer then ends the round
    although Bob has not answered. *)
Lemma unregistered_answer_is_counted_witness :
  submitAnswer sampleQuestions "s9" (Some 1) (Some 2) (sessionAfter firstQuestionOpen)
    = Done (sessionAfter strangerAnswered) /\
  size (answeredThisRound (sessionAfter strangerAnswered)) = 1%nat /\
  endsRoundWith "All players answered" (sessionAfter strangerAnswered)
    (submitAnswer sampleQuestions "s1" (Some 1) (Some 1)
       (sessionAfter strangerAnswered)) = true.
Proof.
  destruct (unregistered_answer_is_counted sampleQuestions "s9" firstSample (Some 2)
              (sessionAfter firstQuestionOpen))
    as (Hs1 & _ & Hsize & _ & _ & Hlater).
  - reflexivity.
  - reflexivity.
  - apply not_answered_yet. vm_compute. reflexivity.
  - reflexivity.
  - split; [etransitivity; [exact Hs1 | vm_compute; reflexivity]|].
    split; [vm_compute; reflexivity|].
    destruct (Hlater "s1"%string (Some 1) (mkPlayer ada 0)) as [Hiff _].
    + apply not_answered_yet. vm_compute. reflexivity.
    + reflexivity.
    + replace (sessionAfter strangerAnswered)
        with (withAnswered ({["s9"%string]} ∪ answeredThisRound (sessionAfter firstQuestionOpen))
                (sessionAfter firstQuestionOpen))
        by (vm_compute; reflexivity).
      apply Hiff. vm_compute. lia.
Defined.

(** The host's skip of the first question clears its timeout, and it is
    still gone after the pause and an answer to the second question. *)
Lemma superseding_step_cancels_question_timeout_witness :
  mkTimer 0 QuestionTimeout 15000 ∈ timers (sessionAfter firstQuestionOpen) /\
  cancelsQuestionTimeout (sessionAfter firstQuestionOpen)
    (sessionAfter firstQuestionSkipped) /\
  fire sampleQuestions 0
    (sessionAfter (firstQuestionSkipped
                     ++ [TimerFires 1; SubmitAnswer "s1" (Some 2) (Some 1)]))
    = Done (sessionAfter (firstQuestionSkipped
                            ++ [TimerFires 1; SubmitAnswer "s1" (Some 2) (Some 1)])).
Proof.
  assert (Hin : mkTimer 0 QuestionTimeout 15000 ∈ timers (sessionAfter firstQuestionOpen))
    by (apply list_elem_of_In; vm_compute; tauto).
  split; [exact Hin|].
  destruct (superseding_step_cancels_question_timeout sampleQuestions
              (NextQuestion "s1") (sessionAfter firstQuestionOpen)
              (sessionAfter firstQuestionSkipped)) as [Hc Hf].
  - apply firstQuestionOpen_reachable.
  - vm_compute. reflexivity.
  - right. right. vm_compute. reflexivity.
  - split; [exact Hc|].
    refine (proj2 (Hf [TimerFires 1; SubmitAnswer "s1" (Some 2) (Some 1)] _ _ _ Hin eq_refl)).
    vm_compute. reflexivity.
Defined.

(** A restart that keeps the scores, after Ada has scored. *)
Lemma restartQuiz_resets_witness :
  exists s',
    restartQuiz sampleQuestions (Some false) (sessionAfter adaScored) = Done s' /\
    currentQuestionIndex s' = 0 /\
    getPlayer "s1" (players s') = Some (mkPlayer ada 10) /\
    answeredThisRound s' = ∅ /\
    acceptingAnswers s' = true.
Proof.
  destruct (restartQuiz_resets sampleQuestions (Some false) (sessionAfter adaScored))
    as (_ & _ & _ & _ & s' & Hs' & Hidx & Hpl & _ & Hans & _ & _ & Hq).
  - apply sessionAfter_reachable. vm_compute. reflexivity.
  - exists s'. split; [exact Hs'|]. split; [exact Hidx|].
    split; [rewrite Hpl; reflexivity|]. split; [exact Hans|].
    destruct (Hq firstSample) as (Hacc & _); [reflexivity|exact Hacc].
Defined.

(** ** Where the server differs *)

(** C3, as stated, fails: the pause's timeout survives a restart.  The host
    skips the first question, which schedules [sendQuestion] in 1500 ms, and
    restarts the quiz within that pause.  The restart serves the first
    question again and leaves the scheduled call pending; when it runs, the
    second question goes out while the restarted first one has hardly
    begun. *)
Lemma stale_advance_survives_restart :
  reachable sampleQuestions (sessionAfter firstQuestionSkipped) /\
  step sampleQuestions (RestartQuiz "s1" None) (sessionAfter firstQuestionSkipped)
    = Done (sessionAfter restartedInPause) /\
  mkTimer 1 AdvancePause 1500 ∈ timers (sessionAfter firstQuestionSkipped) /\
  mkTimer 1 AdvancePause 1500 ∈ timers (sessionAfter restartedInPause) /\
  ~ cancelsEveryTimeout (sessionAfter firstQuestionSkipped)
      (sessionAfter restartedInPause) /\
  currentQuestionIndex (sessionAfter restartedInPause) = 0 /\
  exists s',
    step sampleQuestions (TimerFires 1) (sessionAfter restartedInPause) = Done s' /\
    currentQuestionIndex s' = 1 /\
    existsb isQuestionServed (emittedSince (sessionAfter restartedInPause) s') = true.
Proof.
  split; [apply firstQuestionSkipped_reachable|].
  split; [vm_compute; reflexivity|].
  assert (H1 : mkTimer 1 AdvancePause 1500 ∈ timers (sessionAfter firstQuestionSkipped))
    by (apply list_elem_of_In; vm_compute; tauto).
  split; [exact H1|].
  split; [apply list_elem_of_In; vm_compute; tauto|].
  split.
  - intros Hall. apply (Hall _ H1).
    apply list_elem_of_In. vm_compute. tauto.
  - split; [reflexivity|].
    eexists. split; [vm_compute; reflexivity|].
    split; vm_compute; reflexivity.
Qed.

(** The boundary of C3: the step that finishes the quiz clears nothing.
    With the third question skipped twice, the second advance finishes the
    quiz over the fourth question, whose timeout stays pending and, when it
    runs, meets no question and throws. *)
Lemma finishing_keeps_question_timeout :
  reachable sampleQuestions (sessionAfter finishedOverOpenQuestion) /\
  roomStatus (sessionAfter finishedOverOpenQuestion) = Finished /\
  timers (sessionAfter finishedOverOpenQuestion)
    = [mkTimer 7 QuestionTimeout 15000] /\
  throws (step sampleQuestions (TimerFires 7)
            (sessionAfter finishedOverOpenQuestion)) = true.
Proof.
  split; [apply sessionAfter_reachable; vm_compute; reflexivity|].
  split; [vm_compute; reflexivity|].
  split; vm_compute; reflexivity.
Qed.

(** C5, as stated, fails: a restart does not cancel the pending timer when
    that timer is the pause's.  After the host's skip the one pending
    timeout is the advance; a restart that keeps the scores serves the first
    question and leaves the advance pending, and when it runs the second
    question is served: the session does not go on as one started from
    index -1 would. *)
Lemma restart_keeps_pending_advance :
  reachable sampleQuestions (sessionAfter firstQuestionSkipped) /\
  timers (sessionAfter firstQuestionSkipped) = [mkTimer 1 AdvancePause 1500] /\
  exists s',
    restartQuiz sampleQuestions (Some false) (sessionAfter firstQuestionSkipped)
      = Done s' /\
    currentQuestionIndex s' = 0 /\
    mkTimer 1 AdvancePause 1500 ∈ timers s' /\
    ~ cancelsEveryTimeout (sessionAfter firstQuestionSkipped) s' /\
    exists s'',
      fire sampleQuestions 1 s' = Done s'' /\
      currentQuestionIndex s'' = 1.
Proof.
  split; [apply firstQuestionSkipped_reachable|].
  split; [vm_compute; reflexivity|].
  eexists. split; [vm_compute; reflexivity|].
  split; [reflexivity|].
  assert (Hin : forall (ts : list Timer), mkTimer 1 AdvancePause 1500
                  ∈ mkTimer 1 AdvancePause 1500 :: ts)
    by (intros; apply list_elem_of_here).
  split; [apply Hin|].
  split.
  - intros Hall.
    apply (Hall (mkTimer 1 AdvancePause 1500)).
    + apply list_elem_of_In. vm_compute. tauto.
    + apply list_elem_of_In. vm_compute. tauto.
  - eexists. split; [vm_compute; reflexivity|]. reflexivity.
Qed.

(** C10, as stated, fails: a join that is refused replaces nothing.  Ada,
    with 10 points, joins again with the empty nickname, and with a
    nickname that is no string: each time she gets the error and keeps her
    entry and her score. *)
Lemma refused_rejoin_keeps_score :
  getPlayer "s1" (players (sessionAfter adaScored)) = Some (mkPlayer ada 10) /\
  (exists s',
     joinQuiz sampleQuestions "s1" (Some []) (sessionAfter adaScored) = Done s' /\
     getPlayer "s1" (players s') = Some (mkPlayer ada 10) /\
     emittedSince (sessionAfter adaScored) s'
       = [ToSocket "s1" (ErrorMsg "Nickname is required")]) /\
  (exists s',
     joinQuiz sampleQuestions "s1" None (sessionAfter adaScored) = Done s' /\
     getPlayer "s1" (players s') = Some (mkPlayer ada 10) /\
     emittedSince (sessionAfter adaScored) s'
       = [ToSocket "s1" (ErrorMsg "Nickname is required")]).
Proof.
  split; [reflexivity|].
  split; eexists; (split; [reflexivity|]); split; vm_compute; reflexivity.
Qed.

(** C6, as stated, fails: the round ends early with unequal counts.  Ada
    answers and leaves; Bob's answer makes two connections recorded against
    one player, and the round ends. *)
Lemma round_ends_with_unequal_counts :
  run sampleQuestions answeredAndLeft initial = Done (sessionAfter answeredAndLeft) /\
  exists s',
    submitAnswer sampleQuestions "s2" (Some 1) (Some 0) (sessionAfter answeredAndLeft)
      = Done s' /\
    size (answeredThisRound s') = 2%nat /\
    activePlayerCount s' = 1%nat /\
    endsRoundWith "All players answered" (sessionAfter answeredAndLeft) (Done s') = true.
Proof.
  split; [vm_compute; reflexivity|].
  eexists. split; [vm_compute; reflexivity|].
  split; [vm_compute; reflexivity|].
  split; vm_compute; reflexivity.
Qed.

(** C1 on the server: the only player disconnects while the first question
    is open and nobody has answered.  No player is left, the test
    [answeredThisRound.size >= total] is [0 >= 0], and the round is ended:
    the room gets the result with "All remaining players answered", answers
    are closed, the question's timeout is cleared and the advance is
    scheduled. *)
Lemma sole_player_disconnect_ends_round :
  run sampleQuestions soloQuestionOpen initial = Done (sessionAfter soloQuestionOpen) /\
  acceptingAnswers (sessionAfter soloQuestionOpen) = true /\
  activePlayerCount (sessionAfter soloQuestionOpen) = 1%nat /\
  size (answeredThisRound (sessionAfter soloQuestionOpen)) = 0%nat /\
  exists s',
    disconnect sampleQuestions "s1" (sessionAfter soloQuestionOpen) = Done s' /\
    activePlayerCount s' = 0%nat /\
    acceptingAnswers s' = false /\
    emittedSince (sessionAfter soloQuestionOpen) s' =
      [ToRoom (AnswerResult 1 1 "All remaining players answered");
       ToRoom (LeaderboardMsg [])] /\
    timers s' = [mkTimer 1 AdvancePause 1500].
Proof.
  split; [vm_compute; reflexivity|].
  split; [reflexivity|]. split; [reflexivity|]. split; [vm_compute; reflexivity|].
  eexists. split; [vm_compute; reflexivity|].
  split; [reflexivity|]. split; [reflexivity|].
  split; vm_compute; reflexivity.
Qed.

(** C4 on the server: a nickname of three spaces is not empty, so it passes
    the check; trimmed it is empty, and the player is stored with the empty
    nickname.  The sender gets the status and the room the leaderboard; no
    error is sent. *)
Lemma blank_nickname_joins :
  trim blank = [] /\
  exists s',
    joinQuiz sampleQuestions "s1" (Some blank) initial = Done s' /\
    players s' = [("s1"%string, mkPlayer [] 0)] /\
    outbox s' = [ToSocket "s1" (QuizState Lobby);
                 ToRoom (LeaderboardMsg [([], 0)])].
Proof.
  split; [vm_compute; reflexivity|].
  eexists. split; [vm_compute; reflexivity|].
  split; reflexivity.
Qed.

(** ** More of the server, on its own catalog *)

Lemma adaScored_reachable : reachable sampleQuestions (sessionAfter adaScored).
Proof. apply sessionAfter_reachable. vm_compute. reflexivity. Qed.

Lemma quizFinished_reachable : reachable sampleQuestions (sessionAfter quizFinished).
Proof. apply sessionAfter_reachable. vm_compute. reflexivity. Qed.

Lemma registry_one_entry_per_connection_witness :
  RegistryOk (sessionAfter firstQuestionOpen) /\
  activePlayerCount (sessionAfter firstQuestionOpen) =
    size (list_to_set (C := gset string) (players (sessionAfter firstQuestionOpen)).*1).
Proof.
  apply (registry_one_entry_per_connection sampleQuestions).
  apply firstQuestionOpen_reachable.
Defined.

(** A third connection joins, Ada joins again, Ada leaves. *)
Lemma player_count_changes_witness :
  activePlayerCount (stateOf (joinQuiz sampleQuestions "s3" (Some bob)
                                (sessionAfter firstQuestionOpen))) = 3%nat /\
  activePlayerCount (stateOf (joinQuiz sampleQuestions "s1" (Some bob)
                                (sessionAfter firstQuestionOpen))) = 2%nat /\
  activePlayerCount (stateOf (leaveQuiz "s1" (sessionAfter firstQuestionOpen))) = 1%nat.
Proof.
  destruct (player_count_changes sampleQuestions "s3" 66%N [111; 98]%N
              (sessionAfter firstQuestionOpen) firstQuestionOpen_reachable)
    as [Hnew _].
  destruct (player_count_changes sampleQuestions "s1" 66%N [111; 98]%N
              (sessionAfter firstQuestionOpen) firstQuestionOpen_reachable)
    as [_ Hold].
  destruct Hnew as (Hj & _); [reflexivity|].
  destruct Hold as (Hj' & Hl & _); [by eexists|].
  split; [exact Hj|]. split; [exact Hj'|].
  apply (f_equal Nat.pred) in Hl. exact Hl.
Defined.

Lemma scores_are_multiples_of_reward_witness :
  getPlayer "s1" (players (sessionAfter adaScored)) = Some (mkPlayer ada 10) /\
  0 <= 10 /\ (10 | 10).
Proof.
  split; [reflexivity|].
  apply (scores_are_multiples_of_reward sampleQuestions (sessionAfter adaScored) "s1"
           (mkPlayer ada 10)); [apply adaScored_reachable|reflexivity].
Defined.

Lemma nicknames_capped_and_left_trimmed_witness :
  (length ada <= 20)%nat /\
  forall c n, ada = c :: n -> isWhiteSpace c = false.
Proof.
  apply (nicknames_capped_and_left_trimmed sampleQuestions (sessionAfter adaScored) "s1"
           (mkPlayer ada 10)); [apply adaScored_reachable|reflexivity].
Defined.

(** The host skips once more after the quiz has finished. *)
Lemma throws_only_past_catalog_witness :
  throws (step sampleQuestions (NextQuestion "s1") (sessionAfter quizFinished)) = true.
Proof.
  apply (throws_only_past_catalog sampleQuestions (NextQuestion "s1")
           (sessionAfter quizFinished) quizFinished_reachable).
  vm_compute. discriminate.
Defined.

Lemma one_question_timeout_at_most_witness :
  NoDup (pendingHandles (sessionAfter restartedInPause)) /\
  forall t1 t2,
    t1 ∈ timers (sessionAfter restartedInPause) ->
    t2 ∈ timers (sessionAfter restartedInPause) ->
    callback t1 = QuestionTimeout -> callback t2 = QuestionTimeout ->
    t1 = t2 /\ questionTimer (sessionAfter restartedInPause) = Some (handle t1).
Proof.
  apply (one_question_timeout_at_most sampleQuestions).
  apply sessionAfter_reachable. vm_compute. reflexivity.
Defined.

Lemma open_round_has_its_timeout_witness :
  exists h, questionTimer (sessionAfter firstQuestionOpen) = Some h /\
            mkTimer h QuestionTimeout QUESTION_DURATION_MS
              ∈ timers (sessionAfter firstQuestionOpen).
Proof.
  apply (open_round_has_its_timeout sampleQuestions);
    [apply firstQuestionOpen_reachable|reflexivity].
Defined.

(** After the quiz has finished the room's status is [finished] and a
    joiner is told [lobby]. *)
Lemma status_follows_index_witness :
  roomStatus (sessionAfter quizFinished) = Finished /\
  statusForJoiner sampleQuestions (sessionAfter quizFinished) = Lobby.
Proof.
  destruct (status_follows_index sampleQuestions (sessionAfter quizFinished)
              quizFinished_reachable) as [Hr Hj].
  split; [rewrite Hr|rewrite Hj, Hr]; vm_compute; reflexivity.
Defined.

Lemma index_moves_forward_witness :
  currentQuestionIndex (sessionAfter firstQuestionOpen)
    <= currentQuestionIndex (stateOf (step sampleQuestions (TimerFires 1)
                                        (sessionAfter firstQuestionSkipped)))
    <= currentQuestionIndex (sessionAfter firstQuestionOpen) + 1 /\
  currentQuestionIndex (stateOf (step sampleQuestions (RestartQuiz "s1" None)
                                   (sessionAfter quizFinished))) = 0.
Proof.
  split.
  - apply (proj1 (index_moves_forward sampleQuestions (TimerFires 1)
                    (sessionAfter firstQuestionSkipped))). reflexivity.
  - apply (proj2 (index_moves_forward sampleQuestions (RestartQuiz "s1" None)
                    (sessionAfter quizFinished))). reflexivity.
Defined.

(** Ada picks the first option, which is not the correct one. *)
Lemma wrong_answer_scores_nothing_witness :
  exists s1,
    submitAnswer sampleQuestions "s1" (Some 1) (Some 0)
      (sessionAfter firstQuestionOpen) = Done s1 /\
    players s1 = players (sessionAfter firstQuestionOpen).
Proof.
  destruct (wrong_answer_scores_nothing sampleQuestions "s1" firstSample (Some 0)
              (mkPlayer ada 0) (sessionAfter firstQuestionOpen))
    as (s1 & rest & Hs1 & Hpl & _).
  - reflexivity.
  - reflexivity.
  - apply not_answered_yet. vm_compute. reflexivity.
  - reflexivity.
  - discriminate.
  - exists s1. split; [exact Hs1|exact Hpl].
Defined.

(** A [startQuiz] after the quiz has finished changes nothing. *)
Lemma finished_until_restart_witness :
  Z.of_nat (length sampleQuestions) <= currentQuestionIndex (sessionAfter quizFinished) /\
  roomStatus (sessionAfter quizFinished) = Finished /\
  statusForJoiner sampleQuestions (sessionAfter quizFinished) = Lobby.
Proof.
  destruct (finished_until_restart sampleQuestions (StartQuiz "s1")
              (sessionAfter quizFinished) (sessionAfter quizFinished))
    as (Hidx & _ & Hr & Hj).
  - apply quizFinished_reachable.
  - vm_compute. discriminate.
  - reflexivity.
  - vm_compute. reflexivity.
  - split; [exact Hidx|]. split; [exact Hr|exact Hj].
Defined.

Lemma time_up_ends_round_witness :
  exists s',
    fire sampleQuestions 0 (sessionAfter firstQuestionOpen) = Done s' /\
    acceptingAnswers s' = false /\
    players s' = players (sessionAfter firstQuestionOpen).
Proof.
  destruct (time_up_ends_round sampleQuestions (sessionAfter firstQuestionOpen) 0%nat)
    as (q & s' & _ & Hs' & Hacc & Hpl & _).
  - apply firstQuestionOpen_reachable.
  - reflexivity.
  - reflexivity.
  - exists s'. split; [exact Hs'|]. split; [exact Hacc|exact Hpl].
Defined.

(** The pause after the skipped first question is over. *)
Lemma advance_serves_or_finishes_witness :
  exists s',
    fire sampleQuestions 1 (sessionAfter firstQuestionSkipped) = Done s' /\
    currentQuestionIndex s' = 1 /\
    acceptingAnswers s' = true.
Proof.
  destruct (advance_serves_or_finishes sampleQuestions
              (sessionAfter firstQuestionSkipped) 1%nat (mkTimer 1 AdvancePause 1500))
    as [_ Hserve].
  - vm_compute. reflexivity.
  - reflexivity.
  - destruct (Hserve (mkQuestion 2
        "What prop is required to render a list with stable identity and avoid re-mounts?"
        ["id"; "key"; "index"; "ref"] 1)) as (s' & Hs' & Hidx & Hacc & _);
      [reflexivity|].
    exists s'. split; [exact Hs'|]. split; [exact Hidx|exact Hacc].
Defined.

(** The lobby lets "Ada" through and keeps three spaces back. *)
Lemma lobbyJoin_names_the_player_witness :
  lobbyJoin sampleQuestions "s1" blank initial = Done initial /\
  exists s',
    lobbyJoin sampleQuestions "s1" ada initial = Done s' /\
    getPlayer "s1" (players s') = Some (mkPlayer ada 0).
Proof.
  split.
  - apply (proj1 (lobbyJoin_names_the_player sampleQuestions "s1" blank initial)).
    vm_compute. reflexivity.
  - destruct (proj2 (lobbyJoin_names_the_player sampleQuestions "s1" ada initial))
      as (s' & Hs' & Hp & _); [vm_compute; reflexivity|].
    exists s'. split; [exact Hs'|]. rewrite Hp. vm_compute. reflexivity.
Defined.

Lemma skipping_twice_schedules_two_advances_witness :
  exists s2,
    run sampleQuestions [NextQuestion "s1"; NextQuestion "s1"]
      (sessionAfter firstQuestionOpen) = Done s2 /\
    mkTimer 1 AdvancePause 1500 ∈ timers s2 /\
    mkTimer 2 AdvancePause 1500 ∈ timers s2.
Proof.
  destruct (skipping_twice_schedules_two_advances sampleQuestions
              (sessionAfter firstQuestionOpen) firstSample "s1" "s1")
    as (s2 & Hs2 & _ & _ & _ & H1 & H2).
  - apply firstQuestionOpen_reachable.
  - reflexivity.
  - exists s2. split; [exact Hs2|]. split; [exact H1|exact H2].
Defined.

(** The first question is served to the lobby of two; Bob's answer with the
    id sent is recorded. *)
Lemma served_question_accepts_its_answers_witness :
  "s2" ∈ answeredThisRound
           (stateOf (submitAnswer sampleQuestions "s2" (Some 1) (Some 3)
                       (sessionAfter firstQuestionOpen))).
Proof.
  apply (served_question_accepts_its_answers sampleQuestions
           (emit (ToRoom (QuizState Running)) (sessionAfter twoInLobby))
           (sessionAfter firstQuestionOpen) 1
           "Which hook is used to manage state in a React function component?"
           ["useEffect"; "useState"; "useContext"; "useRef"] 0 4 15000).
  - vm_compute. reflexivity.
  - apply list_elem_of_In. vm_compute. tauto.
Defined.
